(** * useEnvWallet: wallet state synchronisation of the [useEnvWallet] hook

    A shallow embedding of [src/hooks/useEnvWallet.ts].  The hook keeps one
    [EnvWalletState] value and changes it only through [setWalletState]
    with an updater function; every asynchronous continuation of the source
    (a timer, a settled balance query, the end of [initializeProvider], the
    end of [fetchMultiNetworkBalances]) is a pending task of the model that
    commits when it settles.

    Conventions of the model.
    - A JavaScript string is a [string]; a character is one code unit in the
      range 0..255.
    - [undefined] / [null] is [None].
    - [setWalletState f] hands the updater [f] to React, which applies it to
      the latest committed state.  The call itself returns normally: an
      exception thrown by [f] is raised inside React, not at the call, so a
      [try]/[catch] around the call does not see it, and the update is not
      committed.
    - The [ethers] library and [import.meta.env] are interfaces
      ([Ethers], [ImportMetaEnv]); the outcome of a network query is carried
      by the event that settles it. *)

From Stdlib Require Import ZArith Ascii.
From stdpp Require Import base gmap strings list fin_maps.

Local Open Scope Z_scope.

(** ** JavaScript string primitives used by the hook *)

Module JS.

(** Code units that [String.prototype.trim] removes (WhiteSpace and
    LineTerminator), within the 8-bit range. *)
Definition isWhiteSpace (c : ascii) : bool :=
  let n := N_of_ascii c in
  ((9 <=? n) && (n <=? 13) || (n =? 32) || (n =? 160))%N.

Fixpoint trimStart (s : string) : string :=
  match s with
  | EmptyString => EmptyString
  | String c r => if isWhiteSpace c then trimStart r else s
  end.

Fixpoint trimEnd (s : string) : string :=
  match s with
  | EmptyString => EmptyString
  | String c r =>
      match trimEnd r with
      | EmptyString => if isWhiteSpace c then EmptyString else String c EmptyString
      | r' => String c r'
      end
  end.

(** [s.trim()] *)
Definition trim (s : string) : string := trimEnd (trimStart s).

(** [s.startsWith(p)] *)
Definition startsWith (p s : string) : bool := String.prefix p s.

(** [s.slice(n)] for [0 <= n] *)
Fixpoint slice (n : nat) (s : string) : string :=
  match n, s with
  | O, _ => s
  | S n', String _ r => slice n' r
  | S _, EmptyString => EmptyString
  end.

(** [a === b] on strings *)
Definition strictEq (a b : string) : bool := String.eqb a b.

(** Truthiness of a string and of a possibly undefined string. *)
Definition truthy (s : string) : bool := negb (String.eqb s "").

Definition truthyOpt (o : option string) : bool :=
  match o with
  | None => false
  | Some s => truthy s
  end.

(** Truthiness of a possibly null object reference. *)
Definition truthyObj {A : Type} (o : option A) : bool :=
  match o with
  | None => false
  | Some _ => true
  end.

(** [a || b] on possibly undefined strings. *)
Definition or (a b : option string) : option string :=
  if truthyOpt a then a else b.

(** [a || 'literal'] *)
Definition orDefault (a : option string) (d : string) : string :=
  match a with
  | Some s => if truthy s then s else d
  | None => d
  end.

(** The character class [[0-9a-fA-F]]. *)
Definition isHexDigit (c : ascii) : bool :=
  let n := N_of_ascii c in
  ((48 <=? n) && (n <=? 57) || (97 <=? n) && (n <=? 102)
   || (65 <=? n) && (n <=? 70))%N.

(** [/^[0-9a-fA-F]{n}$/.test(s)]: exactly [n] hex digits, then the end of
    the input. *)
Fixpoint testHexRun (n : nat) (s : string) : bool :=
  match n, s with
  | O, EmptyString => true
  | S n', String c r => isHexDigit c && testHexRun n' r
  | _, _ => false
  end.

End JS.

(** ** The credential gate of [fetchMultiNetworkBalances] (lines 95-105) *)

(** Line 95: [!key || key.trim() === '' || key === '0x...' || key === '0x']. *)
Definition isMissingKey (key : option string) : bool :=
  match key with
  | None => true
  | Some k =>
      negb (JS.truthy k) || JS.strictEq (JS.trim k) ""
      || JS.strictEq k "0x..." || JS.strictEq k "0x"
  end.

(** Line 101: [key.startsWith('0x') ? key.slice(2) : key]. *)
Definition cleanKey (k : string) : string :=
  if JS.startsWith "0x" k then JS.slice 2 k else k.

(** Line 102: [/^[0-9a-fA-F]{64}$/.test(cleanKey)]. *)
Definition isValidCredential (k : string) : bool :=
  JS.testHexRun 64 (cleanKey k).

(** Both gates together: the network is queried exactly when this holds. *)
Definition passesKeyGate (key : option string) : bool :=
  match key with
  | None => false
  | Some k => negb (isMissingKey key) && isValidCredential k
  end.

(** The format the specification describes: exactly 64 characters, each one
    of the hexadecimal digits in either case. *)
Definition hexAlphabet : list ascii :=
  String.list_ascii_of_string "0123456789abcdefABCDEF".

Definition Hex64 (s : string) : Prop :=
  String.length s = 64%nat /\ Forall (fun c => In c hexAlphabet) (String.list_ascii_of_string s).

Definition SpecValidCredential (raw : string) : Prop :=
  Hex64 raw \/ exists h, raw = "0x" +:+ h /\ Hex64 h.

(** A blank string: nothing but white space (the empty string included). *)
Definition Blank (s : string) : Prop :=
  Forall (fun c => JS.isWhiteSpace c = true) (String.list_ascii_of_string s).

(** ** Data model *)

(** What a [catch (error)] clause can receive: an [Error] object with its
    [message], or any other thrown value. *)
Inductive Thrown :=
| ErrorObject (message : string)
| NonError.

(** A call either returns (resolves) or throws (rejects). *)
Inductive Completion (A : Type) :=
| Normal (a : A)
| Throw (e : Thrown).
Arguments Normal {A} a.
Arguments Throw {A} e.

(** [error instanceof Error ? error.message : fallback] *)
Definition errorMessage (e : Thrown) (fallback : string) : string :=
  match e with
  | ErrorObject m => m
  | NonError => fallback
  end.

(** [ethers.JsonRpcProvider]: the session to one RPC endpoint. *)
Record Provider := { providerUrl : string }.

(** [ethers.Wallet]: an address bound to the provider it was built with. *)
Record Wallet := { address : string; walletProvider : Provider }.

Module BalanceEntry.
Record t := { balance : string; currency : string }.
End BalanceEntry.

Module Network.
Record t := {
  id : Z;
  name : string;
  rpcUrl : string;
  currency : string;
  relayerKey : option string
}.
End Network.

#[global] Instance Network_eq_dec : EqDecision Network.t.
Proof. solve_decision. Defined.

(** [interface EnvWalletState] (lines 4-17). *)
Record EnvWalletState := {
  userWallet : option Wallet;
  relayerWallet : option Wallet;
  provider : option Provider;
  isConfigured : bool;
  userAddress : option string;
  relayerAddress : option string;
  userBalance : option string;
  relayerBalance : option string;
  multiNetworkBalances : option (gmap string BalanceEntry.t);
  chainId : option Z;
  error : option string;
  currentUserPrivateKey : option string
}.

(** [import.meta.env], fixed for the lifetime of the hook. *)
Class ImportMetaEnv := {
  VITE_RPC_URL : option string;
  VITE_RELAYER_PRIVATE_KEY : option string;
  VITE_ETHEREUM_RPC_URL : option string;
  VITE_ETHEREUM_RELAYER_PRIVATE_KEY : option string;
  VITE_SEPOLIA_RPC_URL : option string;
  VITE_SEPOLIA_RELAYER_PRIVATE_KEY : option string;
  VITE_ARBITRUM_RPC_URL : option string;
  VITE_ARBITRUM_RELAYER_PRIVATE_KEY : option string;
  VITE_BASE_RPC_URL : option string;
  VITE_BASE_RELAYER_PRIVATE_KEY : option string;
  VITE_POLYGON_RPC_URL : option string;
  VITE_POLYGON_RELAYER_PRIVATE_KEY : option string;
  VITE_OPTIMISM_RPC_URL : option string;
  VITE_OPTIMISM_RELAYER_PRIVATE_KEY : option string
}.

(** The synchronous part of the [ethers] library the hook calls. *)
Class Ethers := {
  (** [new ethers.JsonRpcProvider(url)] *)
  JsonRpcProvider : string -> Completion Provider;
  (** the address [new ethers.Wallet(key, _)] derives, or the throw on a
      key it refuses *)
  computeAddress : string -> Completion string;
  (** [ethers.formatEther(balance)] *)
  formatEther : Z -> string
}.

(** The two roles a refreshed balance is tagged with
    ([type: 'user'] and [type: 'relayer']). *)
Inductive Role := User | Relayer.

(** Continuations of the hook that have not run yet. *)
Inductive Task :=
| InitPending (p : Provider) (w : Wallet)
    (** [initializeProvider] suspended at its [await]s *)
| RetryTimer (delay : Z) (key : string)
    (** [setTimeout(() => updateUserPrivateKey(key), delay)] *)
| UserBalanceQuery (p : Provider) (addr : string)
    (** [prev.provider.getBalance(userWallet.address).then(...)] *)
| RefreshQueries (p : Provider) (promises : list (Role * string))
    (** [Promise.all(promises).then(...)] of [refreshBalances] *)
| MultiFetchPending.
    (** [fetchMultiNetworkBalances] suspended at [Promise.all] *)

(** What the outside world answers when a task settles. *)
Inductive Settlement :=
| TimerFired
| InitSettled (network : Completion Z) (balance : Completion Z)
| BalanceSettled (r : Completion Z)
| RefreshSettled (rs : list (Completion Z))
| MultiFetchSettled (q : Network.t -> string -> Completion Z).

(** The operations the hook returns to its caller (lines 336-343). *)
Inductive Operation :=
| OpReinitialize
| OpUpdateUserPrivateKey (newPrivateKey : string)
| OpRefreshBalances
| OpFetchMultiNetworkBalances.

Inductive Event :=
| Call (op : Operation)
| Settle (i : nat) (o : Settlement).

(** Observable actions of one run of [fetchMultiNetworkBalances], tagged
    with the name of the network they are made for. *)
Inductive Effect :=
| OpenConnection (network : string) (url : string)
| BalanceQuery (network : string) (addr : string).

Definition effectNetwork (e : Effect) : string :=
  match e with
  | OpenConnection n _ => n
  | BalanceQuery n _ => n
  end.

(** The hook's state container together with what is still in flight. *)
Record Sys := { committed : EnvWalletState; pending : list Task }.

(** The argument of [useState] (lines 20-33). *)
Definition initialState : EnvWalletState := {|
  userWallet := None;
  relayerWallet := None;
  provider := None;
  isConfigured := false;
  userAddress := None;
  relayerAddress := None;
  userBalance := None;
  relayerBalance := None;
  multiNetworkBalances := None;
  chainId := None;
  error := None;
  currentUserPrivateKey := None
|}.

Definition initialSys : Sys := {| committed := initialState; pending := [] |}.

(** ** The hook's operations *)

Section Hook.
Context {env : ImportMetaEnv} {ethers : Ethers}.

(** [new ethers.Wallet(key, provider)] *)
Definition newWallet (key : string) (p : Provider) : Completion Wallet :=
  match computeAddress key with
  | Normal a => Normal {| address := a; walletProvider := p |}
  | Throw e => Throw e
  end.

(** [const NETWORKS] (lines 36-86). *)
Definition NETWORKS : list Network.t := [
  {| Network.id := 56; Network.name := "BSC";
     Network.rpcUrl := JS.orDefault VITE_RPC_URL "https://bsc-dataseed1.binance.org";
     Network.currency := "BNB";
     Network.relayerKey := VITE_RELAYER_PRIVATE_KEY |};
  {| Network.id := 1; Network.name := "Ethereum";
     Network.rpcUrl := JS.orDefault VITE_ETHEREUM_RPC_URL "https://eth.llamarpc.com";
     Network.currency := "ETH";
     Network.relayerKey := JS.or VITE_ETHEREUM_RELAYER_PRIVATE_KEY VITE_RELAYER_PRIVATE_KEY |};
  {| Network.id := 11155111; Network.name := "Sepolia";
     Network.rpcUrl := JS.orDefault VITE_SEPOLIA_RPC_URL
       "https://sepolia.infura.io/v3/9aa3d95b3bc440fa88ea12eaa4456161";
     Network.currency := "ETH";
     Network.relayerKey := JS.or VITE_SEPOLIA_RELAYER_PRIVATE_KEY VITE_RELAYER_PRIVATE_KEY |};
  {| Network.id := 42161; Network.name := "Arbitrum";
     Network.rpcUrl := JS.orDefault VITE_ARBITRUM_RPC_URL "https://arb1.arbitrum.io/rpc";
     Network.currency := "ETH";
     Network.relayerKey := JS.or VITE_ARBITRUM_RELAYER_PRIVATE_KEY VITE_RELAYER_PRIVATE_KEY |};
  {| Network.id := 8453; Network.name := "Base";
     Network.rpcUrl := JS.orDefault VITE_BASE_RPC_URL "https://mainnet.base.org";
     Network.currency := "ETH";
     Network.relayerKey := JS.or VITE_BASE_RELAYER_PRIVATE_KEY VITE_RELAYER_PRIVATE_KEY |};
  {| Network.id := 137; Network.name := "Polygon";
     Network.rpcUrl := JS.orDefault VITE_POLYGON_RPC_URL "https://polygon-rpc.com";
     Network.currency := "MATIC";
     Network.relayerKey := JS.or VITE_POLYGON_RELAYER_PRIVATE_KEY VITE_RELAYER_PRIVATE_KEY |};
  {| Network.id := 10; Network.name := "Optimism";
     Network.rpcUrl := JS.orDefault VITE_OPTIMISM_RPC_URL "https://mainnet.optimism.io";
     Network.currency := "ETH";
     Network.relayerKey := JS.or VITE_OPTIMISM_RELAYER_PRIVATE_KEY VITE_RELAYER_PRIVATE_KEY |}
].

(** *** fetchMultiNetworkBalances (lines 89-135) *)

(** The entry of the [catch] clause (lines 120-123). *)
Definition fallbackEntry (n : Network.t) : BalanceEntry.t :=
  {| BalanceEntry.balance := "0.0000"; BalanceEntry.currency := Network.currency n |}.

(** The [try] block (lines 108-115) for a network whose key [k] passed the
    gate: what it does, and the formatted balance or the exception.  [q]
    answers [provider.getBalance(wallet.address)] for that network. *)
Definition tryQuery (q : Network.t -> string -> Completion Z)
    (n : Network.t) (k : string) : list Effect * Completion string :=
  let opened := OpenConnection (Network.name n) (Network.rpcUrl n) in
  match JsonRpcProvider (Network.rpcUrl n) with
  | Throw e => ([opened], Throw e)
  | Normal p =>
      match newWallet k p with
      | Throw e => ([opened], Throw e)
      | Normal w =>
          let asked := BalanceQuery (Network.name n) (address w) in
          match q n (address w) with
          | Throw e => ([opened; asked], Throw e)
          | Normal b => ([opened; asked], Normal (formatEther b))
          end
      end
  end.

(** The body of the [NETWORKS.map] callback for one network: its effects
    and the entry it writes into [balances], if any. *)
Definition fetchNetwork (q : Network.t -> string -> Completion Z)
    (n : Network.t) : list Effect * option BalanceEntry.t :=
  if isMissingKey (Network.relayerKey n) then ([], None)
  else
    match Network.relayerKey n with
    | None => ([], None)
    | Some k =>
        if negb (isValidCredential k) then ([], None)
        else
          match tryQuery q n k with
          | (effs, Normal formatted) =>
              (effs, Some {| BalanceEntry.balance := formatted;
                             BalanceEntry.currency := Network.currency n |})
          | (effs, Throw _) => (effs, Some (fallbackEntry n))
          end
    end.

(** The query of a network that passed the gate fails: its [try] block
    throws, whether at the connection, the wallet or the balance query. *)
Definition queryFails (q : Network.t -> string -> Completion Z) (n : Network.t) : Prop :=
  exists k e,
    Network.relayerKey n = Some k
    /\ passesKeyGate (Some k) = true
    /\ (tryQuery q n k).2 = Throw e.

(** The conditions under which the specification says a network is
    skipped. *)
Definition credentialUnusable (n : Network.t) : Prop :=
  Network.relayerKey n = None
  \/ exists k, Network.relayerKey n = Some k
       /\ (Blank k \/ k = "0x..." \/ k = "0x" \/ ~ SpecValidCredential k).

(** [balances[network.name] = entry] when the callback wrote one. *)
Definition recordEntry (q : Network.t -> string -> Completion Z)
    (acc : list Effect * gmap string BalanceEntry.t) (n : Network.t)
    : list Effect * gmap string BalanceEntry.t :=
  match fetchNetwork q n with
  | (effs, Some e) => (acc.1 ++ effs, <[Network.name n := e]> acc.2)
  | (effs, None) => (acc.1 ++ effs, acc.2)
  end.

(** The callbacks of the networks in [order] run to completion against
    the shared object [balances], starting from [{}].  [order] is the
    order in which the promises settle.  The trace groups the effects by
    network; it does not say how the effects of different networks
    interleave. *)
Definition fetchBalances (q : Network.t -> string -> Completion Z)
    (order : list Network.t) : list Effect * gmap string BalanceEntry.t :=
  foldl (recordEntry q) ([], ∅) order.

(** Lines 129-132. *)
Definition commitMultiNetworkBalances (balances : gmap string BalanceEntry.t)
    (prev : EnvWalletState) : EnvWalletState :=
  {| userWallet := userWallet prev;
     relayerWallet := relayerWallet prev;
     provider := provider prev;
     isConfigured := isConfigured prev;
     userAddress := userAddress prev;
     relayerAddress := relayerAddress prev;
     userBalance := userBalance prev;
     relayerBalance := relayerBalance prev;
     multiNetworkBalances := Some balances;
     chainId := chainId prev;
     error := error prev;
     currentUserPrivateKey := currentUserPrivateKey prev |}.

(** *** initializeProvider (lines 143-198) *)

Definition configurationMessage : string :=
  "Please configure VITE_RELAYER_PRIVATE_KEY and VITE_RPC_URL in .env file".

(** Lines 160-163 and 193-196: [{...prev, error: msg}]. *)
Definition commitInitError (msg : string) (prev : EnvWalletState) : EnvWalletState :=
  {| userWallet := userWallet prev;
     relayerWallet := relayerWallet prev;
     provider := provider prev;
     isConfigured := isConfigured prev;
     userAddress := userAddress prev;
     relayerAddress := relayerAddress prev;
     userBalance := userBalance prev;
     relayerBalance := relayerBalance prev;
     multiNetworkBalances := multiNetworkBalances prev;
     chainId := chainId prev;
     error := Some msg;
     currentUserPrivateKey := currentUserPrivateKey prev |}.

(** Lines 181-189. *)
Definition commitInitSuccess (w : Wallet) (p : Provider) (bal : string) (cid : Z)
    (prev : EnvWalletState) : EnvWalletState :=
  {| userWallet := userWallet prev;
     relayerWallet := Some w;
     provider := Some p;
     isConfigured := isConfigured prev;
     userAddress := userAddress prev;
     relayerAddress := Some (address w);
     userBalance := userBalance prev;
     relayerBalance := Some bal;
     multiNetworkBalances := multiNetworkBalances prev;
     chainId := Some cid;
     error := None;
     currentUserPrivateKey := currentUserPrivateKey prev |}.

(** The [catch] clause of [initializeProvider] (lines 191-197). *)
Definition initCatch (e : Thrown) (prev : EnvWalletState) : EnvWalletState :=
  commitInitError (errorMessage e "Failed to initialize provider") prev.

(** [initializeProvider] up to its first [await] (lines 144-171): either
    it has already committed an error, or it is suspended with the
    provider and the relayer wallet it built. *)
Definition initializeProvider (st : EnvWalletState) : EnvWalletState * list Task :=
  match VITE_RELAYER_PRIVATE_KEY, VITE_RPC_URL with
  | Some relayerPrivateKey, Some rpcUrl =>
      if negb (JS.truthy relayerPrivateKey) || negb (JS.truthy rpcUrl)
      then (commitInitError configurationMessage st, [])
      else
        match JsonRpcProvider rpcUrl with
        | Throw e => (initCatch e st, [])
        | Normal p =>
            match newWallet relayerPrivateKey p with
            | Throw e => (initCatch e st, [])
            | Normal w => (st, [InitPending p w])
            end
        end
  | _, _ => (commitInitError configurationMessage st, [])
  end.

(** The rest of [initializeProvider] (lines 171-197), once
    [provider.getNetwork()] and [provider.getBalance(...)] have settled. *)
Definition initializeProviderResume (p : Provider) (w : Wallet)
    (network balance : Completion Z) (st : EnvWalletState) : EnvWalletState :=
  match network with
  | Throw e => initCatch e st
  | Normal cid =>
      match balance with
      | Throw e => initCatch e st
      | Normal b => commitInitSuccess w p (formatEther b) cid st
      end
  end.

(** *** updateUserPrivateKey (lines 200-269) *)

(** Line 204, the source's "empty key":
    [!newPrivateKey || newPrivateKey.trim() === '']. *)
Definition isEmptyKey (newPrivateKey : string) : bool :=
  negb (JS.truthy newPrivateKey) || JS.strictEq (JS.trim newPrivateKey) "".

(** Lines 206-213. *)
Definition commitClearUser (prev : EnvWalletState) : EnvWalletState :=
  {| userWallet := None;
     relayerWallet := relayerWallet prev;
     provider := provider prev;
     isConfigured := false;
     userAddress := None;
     relayerAddress := relayerAddress prev;
     userBalance := None;
     relayerBalance := relayerBalance prev;
     multiNetworkBalances := multiNetworkBalances prev;
     chainId := chainId prev;
     error := error prev;
     currentUserPrivateKey := Some "" |}.

(** [newState] of lines 233-240. *)
Definition commitUserWallet (newPrivateKey : string) (w : Wallet)
    (prev : EnvWalletState) : EnvWalletState :=
  {| userWallet := Some w;
     relayerWallet := relayerWallet prev;
     provider := provider prev;
     isConfigured :=
       JS.truthyObj (relayerWallet prev) && JS.truthyObj (provider prev)
       && JS.truthy newPrivateKey;
     userAddress := Some (address w);
     relayerAddress := relayerAddress prev;
     userBalance := userBalance prev;
     relayerBalance := relayerBalance prev;
     multiNetworkBalances := multiNetworkBalances prev;
     chainId := chainId prev;
     error := None;
     currentUserPrivateKey := Some newPrivateKey |}.

(** Lines 246-249. *)
Definition commitUserBalance (bal : string) (current : EnvWalletState) : EnvWalletState :=
  {| userWallet := userWallet current;
     relayerWallet := relayerWallet current;
     provider := provider current;
     isConfigured := isConfigured current;
     userAddress := userAddress current;
     relayerAddress := relayerAddress current;
     userBalance := Some bal;
     relayerBalance := relayerBalance current;
     multiNetworkBalances := multiNetworkBalances current;
     chainId := chainId current;
     error := error current;
     currentUserPrivateKey := currentUserPrivateKey current |}.

(** The delay of the [setTimeout] of line 223, in milliseconds. *)
Definition retryDelay : Z := 100.

(** One call of [updateUserPrivateKey]: the state it commits and the
    continuations it leaves behind.  The only statement of the [try] block
    (lines 217-256) is the call of [setWalletState]; [new ethers.Wallet]
    runs inside the updater.  When it throws, the updater returns no state
    and has issued no query, the update is not committed, and the [catch]
    clause of lines 258-267 is not entered. *)
Definition updateUserPrivateKey (newPrivateKey : string) (st : EnvWalletState)
    : EnvWalletState * list Task :=
  if isEmptyKey newPrivateKey then (commitClearUser st, [])
  else
    match provider st with
    | None => (st, [RetryTimer retryDelay newPrivateKey])
    | Some p =>
        match newWallet newPrivateKey p with
        | Normal w =>
            (commitUserWallet newPrivateKey w st, [UserBalanceQuery p (address w)])
        | Throw _ => (st, [])
        end
    end.

(** The [.then] / [.catch] of lines 244-253. *)
Definition userBalanceSettled (r : Completion Z) (current : EnvWalletState)
    : EnvWalletState :=
  match r with
  | Normal b => commitUserBalance (formatEther b) current
  | Throw _ => current
  end.

(** *** refreshBalances (lines 271-321) *)

(** [const updates: Partial<EnvWalletState>] of line 297. *)
Record BalanceUpdates := {
  updUserBalance : option string;
  updRelayerBalance : option string
}.

(** The body of [results.forEach] (lines 298-304). *)
Definition applyResult (updates : BalanceUpdates) (result : Role * string)
    : BalanceUpdates :=
  match result.1 with
  | User => {| updUserBalance := Some result.2;
               updRelayerBalance := updRelayerBalance updates |}
  | Relayer => {| updUserBalance := updUserBalance updates;
                  updRelayerBalance := Some result.2 |}
  end.

Definition collectUpdates (results : list (Role * string)) : BalanceUpdates :=
  foldl applyResult {| updUserBalance := None; updRelayerBalance := None |} results.

(** [{ ...current, ...updates }] (line 305). *)
Definition mergeUpdates (current : EnvWalletState) (updates : BalanceUpdates)
    : EnvWalletState :=
  {| userWallet := userWallet current;
     relayerWallet := relayerWallet current;
     provider := provider current;
     isConfigured := isConfigured current;
     userAddress := userAddress current;
     relayerAddress := relayerAddress current;
     userBalance :=
       match updUserBalance updates with
       | Some b => Some b
       | None => userBalance current
       end;
     relayerBalance :=
       match updRelayerBalance updates with
       | Some b => Some b
       | None => relayerBalance current
       end;
     multiNetworkBalances := multiNetworkBalances current;
     chainId := chainId current;
     error := error current;
     currentUserPrivateKey := currentUserPrivateKey current |}.

(** Lines 296-306. *)
Definition commitRefresh (results : list (Role * string)) (current : EnvWalletState)
    : EnvWalletState :=
  mergeUpdates current (collectUpdates results).

(** [Promise.all]: the values in order when every promise resolved, a
    rejection as soon as one rejected. *)
Fixpoint promiseAll {A : Type} (rs : list (Completion A)) : Completion (list A) :=
  match rs with
  | [] => Normal []
  | Throw e :: _ => Throw e
  | Normal a :: rest =>
      match promiseAll rest with
      | Normal l => Normal (a :: l)
      | Throw e => Throw e
      end
  end.

(** The promises of lines 279-293: one per wallet that exists, tagged. *)
Definition refreshPromises (prev : EnvWalletState) : list (Role * string) :=
  match userWallet prev with
  | Some w => [(User, address w)]
  | None => []
  end ++
  match relayerWallet prev with
  | Some w => [(Relayer, address w)]
  | None => []
  end.

(** One call of [refreshBalances]: the updater returns [prev]; the
    queries it issued and the multi-network fetch stay pending. *)
Definition refreshBalances (st : EnvWalletState) : EnvWalletState * list Task :=
  match provider st with
  | None => (st, [MultiFetchPending])
  | Some p => (st, [RefreshQueries p (refreshPromises st); MultiFetchPending])
  end.

(** [Promise.all(promises).then(...).catch(...)] (lines 295-310): [rs]
    are the outcomes of the issued queries, in the order of [promises]. *)
Definition refreshSettled (promises : list (Role * string))
    (rs : list (Completion Z)) (current : EnvWalletState) : EnvWalletState :=
  match promiseAll rs with
  | Normal balances =>
      commitRefresh (zip (promises.*1) (formatEther <$> balances)) current
  | Throw _ => current
  end.

(** *** The hook as a transition system *)

Definition runOperation (op : Operation) (st : EnvWalletState)
    : EnvWalletState * list Task :=
  match op with
  | OpReinitialize => initializeProvider st
  | OpUpdateUserPrivateKey k => updateUserPrivateKey k st
  | OpRefreshBalances => refreshBalances st
  | OpFetchMultiNetworkBalances => (st, [MultiFetchPending])
  end.

(** What a pending task does when it settles with [o]; [None] when [o]
    is not an answer to that kind of task. *)
Definition settle (t : Task) (o : Settlement) (st : EnvWalletState)
    : option (EnvWalletState * list Task) :=
  match t, o with
  | InitPending p w, InitSettled network balance =>
      Some (initializeProviderResume p w network balance st, [])
  | RetryTimer _ key, TimerFired => Some (updateUserPrivateKey key st)
  | UserBalanceQuery _ _, BalanceSettled r => Some (userBalanceSettled r st, [])
  | RefreshQueries _ promises, RefreshSettled rs =>
      if bool_decide (length rs = length promises)
      then Some (refreshSettled promises rs st, [])
      else None
  | MultiFetchPending, MultiFetchSettled q =>
      Some (commitMultiNetworkBalances (fetchBalances q NETWORKS).2 st, [])
  | _, _ => None
  end.

Definition step (s : Sys) (ev : Event) : Sys :=
  match ev with
  | Call op =>
      let '(st, ts) := runOperation op (committed s) in
      {| committed := st; pending := pending s ++ ts |}
  | Settle i o =>
      match pending s !! i with
      | None => s
      | Some t =>
          match settle t o (committed s) with
          | None => s
          | Some (st, ts) => {| committed := st; pending := delete i (pending s) ++ ts |}
          end
      end
  end.

Definition run (evs : list Event) : Sys := foldl step initialSys evs.

(** The mount effect (lines 138-141) calls [initializeProvider] and
    [fetchMultiNetworkBalances]; both are among the operations, so every
    execution of the hook is a run from [initialSys]. *)
Inductive reachable : Sys -> Prop :=
| reachable_initial : reachable initialSys
| reachable_step s ev : reachable s -> reachable (step s ev).

(** The condition the specification gives for [isConfigured]. *)
Definition configuredCondition (st : EnvWalletState) : bool :=
  JS.truthyObj (relayerWallet st) && JS.truthyObj (provider st)
  && JS.truthyOpt (currentUserPrivateKey st).

(** [isConfigured] is exactly the conjunction of its three preconditions. *)
Definition isConfiguredExact (st : EnvWalletState) : Prop :=
  isConfigured st = configuredCondition st.

(** A remembered key implies a provider, and a provider implies the
    relayer wallet that [initializeProvider] commits with it. *)
Definition wired (st : EnvWalletState) : Prop :=
  (JS.truthyOpt (currentUserPrivateKey st) = true -> JS.truthyObj (provider st) = true)
  /\ (JS.truthyObj (provider st) = true -> JS.truthyObj (relayerWallet st) = true).

(** [next] differs from [prev] at most in the [error] field. *)
Definition sameButError (prev next : EnvWalletState) : Prop :=
  userWallet next = userWallet prev
  /\ relayerWallet next = relayerWallet prev
  /\ provider next = provider prev
  /\ isConfigured next = isConfigured prev
  /\ userAddress next = userAddress prev
  /\ relayerAddress next = relayerAddress prev
  /\ userBalance next = userBalance prev
  /\ relayerBalance next = relayerBalance prev
  /\ multiNetworkBalances next = multiNetworkBalances prev
  /\ chainId next = chainId prev
  /\ currentUserPrivateKey next = currentUserPrivateKey prev.

(** [next] differs from [prev] at most in the two balances a refresh
    writes. *)
Definition sameButBalances (prev next : EnvWalletState) : Prop :=
  userWallet next = userWallet prev
  /\ relayerWallet next = relayerWallet prev
  /\ provider next = provider prev
  /\ isConfigured next = isConfigured prev
  /\ userAddress next = userAddress prev
  /\ relayerAddress next = relayerAddress prev
  /\ multiNetworkBalances next = multiNetworkBalances prev
  /\ chainId next = chainId prev
  /\ error next = error prev
  /\ currentUserPrivateKey next = currentUserPrivateKey prev.

(** Everything the hook can do to the committed state, as far as
    [isConfigured], the provider, the relayer wallet and the remembered key
    are concerned. *)
Definition keepsConfiguration (prev next : EnvWalletState) : Prop :=
  isConfigured next = isConfigured prev
  /\ provider next = provider prev
  /\ relayerWallet next = relayerWallet prev
  /\ currentUserPrivateKey next = currentUserPrivateKey prev.

(** What an operation and a settling task do to the committed state. *)
Inductive Commit (prev next : EnvWalletState) : Prop :=
| commit_keeps : keepsConfiguration prev next -> Commit prev next
| commit_update key : next = (updateUserPrivateKey key prev).1 -> Commit prev next
| commit_resume p w network balance :
    next = initializeProviderResume p w network balance prev -> Commit prev next.
(** *** Coherence of the committed state and of the pending tasks *)

(** The relayer fields belong together: the address is the relayer
    wallet's, the provider is the one that wallet was built with, the chain
    id is there exactly when the wallet is, and a relayer balance is never
    there without the wallet. *)
Definition relayerCoherent (st : EnvWalletState) : Prop :=
  relayerAddress st = address <$> relayerWallet st
  /\ provider st = walletProvider <$> relayerWallet st
  /\ (is_Some (chainId st) <-> is_Some (relayerWallet st))
  /\ (is_Some (relayerBalance st) -> is_Some (relayerWallet st)).

(** The user fields belong together: the address is the user wallet's, the
    wallet is the one derived from the remembered key, and there is no user
    wallet without a provider. *)
Definition userCoherent (st : EnvWalletState) : Prop :=
  userAddress st = address <$> userWallet st
  /\ (forall w, userWallet st = Some w ->
        exists k, currentUserPrivateKey st = Some k
                  /\ ~ Blank k
                  /\ computeAddress k = Normal (address w))
  /\ (is_Some (userWallet st) -> is_Some (provider st)).

(** [multiNetworkBalances] is null or the result of one whole batch. *)
Definition multiCoherent (st : EnvWalletState) : Prop :=
  match multiNetworkBalances st with
  | None => True
  | Some m => exists q, m = (fetchBalances q NETWORKS).2
  end.

(** What holds of a task while it is pending, the committed state being
    [st]. *)
Definition taskWellFormed (st : EnvWalletState) (t : Task) : Prop :=
  match t with
  | InitPending p w => walletProvider w = p
  | RetryTimer delay key => delay = retryDelay /\ ~ Blank key
  | UserBalanceQuery _ _ => True
  | RefreshQueries _ promises =>
      promises.*1 `sublist_of` [User; Relayer]
      /\ (Relayer ∈ promises.*1 -> is_Some (relayerWallet st))
  | MultiFetchPending => True
  end.

Definition sysCoherent (s : Sys) : Prop :=
  relayerCoherent (committed s)
  /\ userCoherent (committed s)
  /\ multiCoherent (committed s)
  /\ Forall (taskWellFormed (committed s)) (pending s).

(** The shapes the effects of one network's callback can have. *)
Definition callbackTrace (n : Network.t) (effs : list Effect) : Prop :=
  effs = []
  \/ effs = [OpenConnection (Network.name n) (Network.rpcUrl n)]
  \/ exists addr, effs = [OpenConnection (Network.name n) (Network.rpcUrl n);
                          BalanceQuery (Network.name n) addr].
(** The variable of [import.meta.env] that the catalog reads first for the
    key of the network of that name (lines 42, 49, 56, 63, 70, 77, 84). *)
Definition ownKeyVariable (networkName : string) : option string :=
  if String.eqb networkName "BSC" then VITE_RELAYER_PRIVATE_KEY
  else if String.eqb networkName "Ethereum" then VITE_ETHEREUM_RELAYER_PRIVATE_KEY
  else if String.eqb networkName "Sepolia" then VITE_SEPOLIA_RELAYER_PRIVATE_KEY
  else if String.eqb networkName "Arbitrum" then VITE_ARBITRUM_RELAYER_PRIVATE_KEY
  else if String.eqb networkName "Base" then VITE_BASE_RELAYER_PRIVATE_KEY
  else if String.eqb networkName "Polygon" then VITE_POLYGON_RELAYER_PRIVATE_KEY
  else if String.eqb networkName "Optimism" then VITE_OPTIMISM_RELAYER_PRIVATE_KEY
  else None.

(** The key the catalog gives the network of that name: its own variable
    when that is set to a non-empty string, [VITE_RELAYER_PRIVATE_KEY]
    otherwise. *)
Definition keyInUse (networkName : string) : option string :=
  if JS.truthyOpt (ownKeyVariable networkName) then ownKeyVariable networkName
  else VITE_RELAYER_PRIVATE_KEY.

(** What a step from [st] to [st'] that leaves the tasks [ts] behind keeps. *)
Definition coherentStep (st st' : EnvWalletState) (ts : list Task) : Prop :=
  (relayerCoherent st -> relayerCoherent st')
  /\ (userCoherent st -> userCoherent st')
  /\ (multiCoherent st -> multiCoherent st')
  /\ (is_Some (relayerWallet st) -> is_Some (relayerWallet st'))
  /\ (is_Some (provider st) -> is_Some (provider st'))
  /\ Forall (taskWellFormed st') ts.
End Hook.

(** ** A sample configuration and a sample [ethers], to evaluate the model *)

Definition sampleKey : string :=
  "0xaaaaaaaaaaaaaaaaaaaaaaaaaaaaaaaaaaaaaaaaaaaaaaaaaaaaaaaaaaaaaaaa".

Definition sampleUserKey : string :=
  "0xbbbbbbbbbbbbbbbbbbbbbbbbbbbbbbbbbbbbbbbbbbbbbbbbbbbbbbbbbbbbbbbb".

Definition sampleEnv : ImportMetaEnv := {|
  VITE_RPC_URL := Some "http://localhost:8545";
  VITE_RELAYER_PRIVATE_KEY := Some sampleKey;
  VITE_ETHEREUM_RPC_URL := None;
  VITE_ETHEREUM_RELAYER_PRIVATE_KEY := Some "0x...";
  VITE_SEPOLIA_RPC_URL := None;
  VITE_SEPOLIA_RELAYER_PRIVATE_KEY := None;
  VITE_ARBITRUM_RPC_URL := None;
  VITE_ARBITRUM_RELAYER_PRIVATE_KEY := Some "not-a-key";
  VITE_BASE_RPC_URL := None;
  VITE_BASE_RELAYER_PRIVATE_KEY := None;
  VITE_POLYGON_RPC_URL := None;
  VITE_POLYGON_RELAYER_PRIVATE_KEY := None;
  VITE_OPTIMISM_RPC_URL := None;
  VITE_OPTIMISM_RELAYER_PRIVATE_KEY := None
|}.

(** A configuration without the primary RPC URL. *)
Definition unconfiguredEnv : ImportMetaEnv := {|
  VITE_RPC_URL := None;
  VITE_RELAYER_PRIVATE_KEY := Some sampleKey;
  VITE_ETHEREUM_RPC_URL := None;
  VITE_ETHEREUM_RELAYER_PRIVATE_KEY := None;
  VITE_SEPOLIA_RPC_URL := None;
  VITE_SEPOLIA_RELAYER_PRIVATE_KEY := None;
  VITE_ARBITRUM_RPC_URL := None;
  VITE_ARBITRUM_RELAYER_PRIVATE_KEY := None;
  VITE_BASE_RPC_URL := None;
  VITE_BASE_RELAYER_PRIVATE_KEY := None;
  VITE_POLYGON_RPC_URL := None;
  VITE_POLYGON_RELAYER_PRIVATE_KEY := None;
  VITE_OPTIMISM_RPC_URL := None;
  VITE_OPTIMISM_RELAYER_PRIVATE_KEY := None
|}.

(** Accepts the keys of the right format, as [ethers.Wallet] does for most
    of them, and throws an [Error] on every other string. *)
Definition sampleEthers : Ethers := {|
  JsonRpcProvider url := Normal {| providerUrl := url |};
  computeAddress key :=
    if isValidCredential key then Normal ("addr:" +:+ key)
    else Throw (ErrorObject "invalid private key");
  formatEther wei := if (wei =? 0)%Z then "0.0" else "1.0"
|}.

(** A world in which the query against the network named "BSC" fails and
    every other query answers 5. *)
Definition bscDown (n : Network.t) (addr : string) : Completion Z :=
  if String.eqb (Network.name n) "BSC" then Throw (ErrorObject "timeout") else Normal 5.

Definition allUp (n : Network.t) (addr : string) : Completion Z := Normal 5.

(** The hook mounted under the sample configuration: the provider and the
    relayer wallet are committed. *)
Definition mounted : list Event :=
  [Call OpReinitialize; Settle 0 (InitSettled (Normal 56) (Normal 0))].

(** After mounting, a user key is set and its balance query answers. *)
Definition withUser : list Event :=
  mounted ++ [Call (OpUpdateUserPrivateKey sampleUserKey);
              Settle 0 (BalanceSettled (Normal 0))].

(** The hook asked for a user key before the provider arrived; then the
    provider arrived.  The retry timer of the call is still pending. *)
Definition keyBeforeProvider : list Event :=
  [Call (OpUpdateUserPrivateKey sampleUserKey);
   Call OpReinitialize;
   Settle 1 (InitSettled (Normal 56) (Normal 0))].


(** ** Strings *)

Lemma isHexDigit_alphabet c : JS.isHexDigit c = bool_decide (c ∈ hexAlphabet).
Proof. destruct c as [[] [] [] [] [] [] [] []]; reflexivity. Qed.

Lemma isHexDigit_In c : JS.isHexDigit c = true <-> In c hexAlphabet.
Proof.
  rewrite isHexDigit_alphabet, bool_decide_eq_true. apply list_elem_of_In.
Qed.

Lemma hex_not_whitespace c : JS.isHexDigit c = true -> JS.isWhiteSpace c = false.
Proof. destruct c as [[] [] [] [] [] [] [] []]; vm_compute; congruence. Qed.

Lemma testHexRun_spec n s :
  JS.testHexRun n s = true <->
  String.length s = n /\ Forall (fun c => In c hexAlphabet) (String.list_ascii_of_string s).
Proof.
  revert s. induction n as [|n IH]; intros [|c r]; simpl.
  - split; [intros _; split; [reflexivity | constructor] | reflexivity].
  - split; [discriminate | intros [? _]; discriminate].
  - split; [discriminate | intros [? _]; discriminate].
  - rewrite andb_true_iff, IH, isHexDigit_In. split.
    + intros [Hc [Hl Hr]]. split; [by rewrite Hl | by constructor].
    + intros [Hl Hr]. inversion Hr; subst. split; [done | split; [congruence | done]].
Qed.

Lemma startsWith_0x s :
  JS.startsWith "0x" s = true <-> exists h, s = "0x" +:+ h.
Proof.
  unfold JS.startsWith. split.
  - destruct s as [|a [|b r]]; cbn [String.prefix]; try discriminate.
    + destruct (ascii_dec "0" a); intros; discriminate.
    + destruct (ascii_dec "0" a) as [<-|]; [|intros; discriminate].
      destruct (ascii_dec "x" b) as [<-|]; [|intros; discriminate].
      intros _. by exists r.
  - intros [h ->]. by destruct h.
Qed.

Lemma cleanKey_prefixed h : cleanKey ("0x" +:+ h) = h.
Proof.
  unfold cleanKey. replace (JS.startsWith "0x" ("0x" +:+ h)) with true; [done|].
  symmetry. apply startsWith_0x. by exists h.
Qed.

Lemma Hex64_not_prefixed s : Hex64 s -> JS.startsWith "0x" s = false.
Proof.
  intros [_ Hall]. destruct (JS.startsWith "0x" s) eqn:E; [|done].
  apply startsWith_0x in E as [h ->]. simpl in Hall.
  inversion Hall as [|? ? _ Hx]; subst. inversion Hx as [|? ? Hbad _]; subst.
  apply isHexDigit_In in Hbad. discriminate.
Qed.

Lemma isValidCredential_spec raw :
  isValidCredential raw = true <-> SpecValidCredential raw.
Proof.
  unfold isValidCredential, SpecValidCredential. split.
  - intros H. unfold cleanKey in H. destruct (JS.startsWith "0x" raw) eqn:E.
    + right. apply startsWith_0x in E as [h ->]. exists h. split; [done|].
      by apply testHexRun_spec.
    + left. by apply testHexRun_spec.
  - intros [H | [h [-> H]]].
    + unfold cleanKey. rewrite (Hex64_not_prefixed _ H). by apply testHexRun_spec.
    + rewrite cleanKey_prefixed. by apply testHexRun_spec.
Qed.

Lemma trimEnd_cons_nonblank c r :
  JS.isWhiteSpace c = false -> JS.trimEnd (String c r) <> "".
Proof. simpl. intros ->. by destruct (JS.trimEnd r). Qed.

Lemma trim_cons_nonblank c r :
  JS.isWhiteSpace c = false -> JS.trim (String c r) <> "".
Proof.
  intros H. unfold JS.trim. simpl JS.trimStart. rewrite H.
  by apply trimEnd_cons_nonblank.
Qed.

Lemma trimEnd_blank s : JS.trimEnd s = "" <-> Blank s.
Proof.
  unfold Blank. induction s as [|c r IH]; simpl.
  - split; [constructor | done].
  - destruct (JS.trimEnd r) eqn:E.
    + destruct (JS.isWhiteSpace c) eqn:W.
      * split; [intros _; constructor; [done | by apply IH] | done].
      * split; [done | intros H; inversion H; congruence].
    + split; [done |]. intros H. inversion H as [|? ? _ Hr]; subst.
      apply IH in Hr. discriminate.
Qed.

Lemma trimStart_shape s :
  JS.trimStart s = "" \/
  exists c r, JS.trimStart s = String c r /\ JS.isWhiteSpace c = false.
Proof.
  induction s as [|c r IH]; simpl; [by left|].
  destruct (JS.isWhiteSpace c) eqn:W; [done|]. right. by exists c, r.
Qed.

Lemma trimStart_blank s : JS.trimStart s = "" <-> Blank s.
Proof.
  unfold Blank. induction s as [|c r IH]; simpl.
  - split; [constructor | done].
  - destruct (JS.isWhiteSpace c) eqn:W.
    + rewrite IH. split; [by constructor | by inversion 1].
    + split; [done | intros H; inversion H; congruence].
Qed.

Lemma trim_blank s : JS.trim s = "" <-> Blank s.
Proof.
  unfold JS.trim. split.
  - intros H. apply trimStart_blank.
    destruct (trimStart_shape s) as [E | (c & r & E & W)]; [done|].
    rewrite E in H. by apply trimEnd_cons_nonblank in H.
  - intros H. apply trimStart_blank in H. by rewrite H.
Qed.

Lemma isEmptyKey_blank k : isEmptyKey k = true <-> Blank k.
Proof.
  unfold isEmptyKey, JS.truthy, JS.strictEq.
  rewrite orb_true_iff, negb_true_iff, negb_false_iff, !String.eqb_eq, trim_blank.
  split; [intros [-> | H]; [constructor | done] | by right].
Qed.

Lemma valid_not_missing k :
  isValidCredential k = true -> isMissingKey (Some k) = false.
Proof.
  intros H. unfold isMissingKey, JS.truthy, JS.strictEq.
  assert (k <> "" /\ k <> "0x..." /\ k <> "0x") as (N1 & N2 & N3).
  { repeat split; intros E; rewrite E in H; discriminate H. }
  assert (JS.trim k <> "") as Ht.
  { destruct k as [|c r]; [done|]. apply trim_cons_nonblank.
    apply isValidCredential_spec in H as [[_ Hall] | [h [E _]]].
    - simpl in Hall. inversion Hall; subst. apply hex_not_whitespace.
      by apply isHexDigit_In.
    - simpl in E. by injection E as -> _. }
  apply String.eqb_neq in N1, N2, N3, Ht. by rewrite N1, N2, N3, Ht.
Qed.

Lemma passesKeyGate_spec key :
  passesKeyGate key = true <-> exists raw, key = Some raw /\ SpecValidCredential raw.
Proof.
  destruct key as [k|]; simpl.
  - split.
    + intros H. apply andb_true_iff in H as [_ H]. exists k. split; [done|].
      by apply isValidCredential_spec.
    + intros (raw & [= <-] & H). apply isValidCredential_spec in H.
      pose proof (valid_not_missing _ H) as M. simpl in M. by rewrite M, H.
  - split; [done | by intros (raw & ? & _)].
Qed.

(** ** C6: the credential-format check *)

(** C6.  The format check of lines 100-105 accepts a string exactly when it
    is 64 hexadecimal digits (either case), or ["0x"] followed by 64
    hexadecimal digits; the empty string and the placeholders ["0x..."] and
    ["0x"] are rejected; and a network's key passes the whole gate of
    lines 95-105 exactly when it is present and of that format. *)
Theorem C6_credential_format_exact (raw : string) :
  (isValidCredential raw = true <-> SpecValidCredential raw)
  /\ isValidCredential "" = false
  /\ isValidCredential "0x..." = false
  /\ isValidCredential "0x" = false
  /\ (forall key : option string,
        passesKeyGate key = true <->
        exists k, key = Some k /\ SpecValidCredential k).
Proof.
  split; [apply isValidCredential_spec|].
  repeat split; try reflexivity; by apply passesKeyGate_spec.
Qed.

(** The prefix that [cleanKey] strips is the lowercase ["0x"]: the same
    digits behind ["0X"] do not pass. *)
Example uppercase_prefix_not_stripped :
  isValidCredential sampleKey = true
  /\ isValidCredential
       "0Xaaaaaaaaaaaaaaaaaaaaaaaaaaaaaaaaaaaaaaaaaaaaaaaaaaaaaaaaaaaaaaaa" = false.
Proof. by vm_compute. Qed.

(** ** fetchMultiNetworkBalances *)

Section FetchProperties.
Context {env : ImportMetaEnv} {ethers : Ethers}.
Implicit Types (q : Network.t -> string -> Completion Z) (n : Network.t).
Implicit Types (order : list Network.t).


Lemma NETWORKS_names :
  Network.name <$> NETWORKS =
  ["BSC"; "Ethereum"; "Sepolia"; "Arbitrum"; "Base"; "Polygon"; "Optimism"].
Proof. reflexivity. Qed.

Lemma NETWORKS_names_NoDup : NoDup (Network.name <$> NETWORKS).
Proof. rewrite NETWORKS_names. apply (bool_decide_unpack _). by vm_compute. Qed.

Lemma order_names_NoDup order :
  order ≡ₚ NETWORKS -> NoDup (Network.name <$> order).
Proof. intros ->. apply NETWORKS_names_NoDup. Qed.

Lemma name_inj_on (l : list Network.t) n n' :
  NoDup (Network.name <$> l) -> n ∈ l -> n' ∈ l ->
  Network.name n' = Network.name n -> n' = n.
Proof.
  induction l as [|x l IH]; [by intros _ ?%elem_of_nil|].
  rewrite fmap_cons, NoDup_cons. intros [Hx Hl] Hn Hn' E.
  apply elem_of_cons in Hn as [-> | Hn]; apply elem_of_cons in Hn' as [-> | Hn'].
  - done.
  - exfalso. apply Hx. rewrite <- E. by apply list_elem_of_fmap_2.
  - exfalso. apply Hx. rewrite E. by apply list_elem_of_fmap_2.
  - by apply IH.
Qed.

Lemma tryQuery_tags q n k :
  Forall (fun e => effectNetwork e = Network.name n) (tryQuery q n k).1.
Proof.
  unfold tryQuery. destruct (JsonRpcProvider _) as [p|]; [|by repeat constructor].
  destruct (newWallet k p) as [w|]; [|by repeat constructor].
  destruct (q n (address w)); by repeat constructor.
Qed.

Lemma fetchNetwork_tags q n :
  Forall (fun e => effectNetwork e = Network.name n) (fetchNetwork q n).1.
Proof.
  unfold fetchNetwork. destruct (isMissingKey _); [constructor|].
  destruct (Network.relayerKey n) as [k|]; [|constructor].
  destruct (negb _); [constructor|].
  pose proof (tryQuery_tags q n k) as H.
  by destruct (tryQuery q n k) as [effs [b|e]].
Qed.

Lemma fetchNetwork_gated q n :
  passesKeyGate (Network.relayerKey n) = false -> fetchNetwork q n = ([], None).
Proof.
  unfold fetchNetwork, passesKeyGate. destruct (Network.relayerKey n) as [k|]; [|done].
  destruct (isMissingKey (Some k)); [done|]. simpl. by intros ->.
Qed.

Lemma fetchNetwork_failed q n : queryFails q n -> (fetchNetwork q n).2 = Some (fallbackEntry n).
Proof.
  intros (k & e & Hk & Hgate & Hthrow). unfold fetchNetwork. rewrite Hk.
  unfold passesKeyGate in Hgate. apply andb_true_iff in Hgate as [Hm Hv].
  apply negb_true_iff in Hm. rewrite Hm, Hv. simpl.
  destruct (tryQuery q n k) as [effs r]. simpl in Hthrow. by subst r.
Qed.

Lemma fetchNetwork_ext q q' n :
  (forall a, q' n a = q n a) -> fetchNetwork q' n = fetchNetwork q n.
Proof.
  intros H. unfold fetchNetwork, tryQuery.
  destruct (isMissingKey _); [done|]. destruct (Network.relayerKey n) as [k|]; [|done].
  destruct (negb _); [done|]. destruct (JsonRpcProvider _) as [p|]; [|done].
  destruct (newWallet k p) as [w|]; [|done]. by rewrite H.
Qed.

Lemma credentialUnusable_gate n :
  credentialUnusable n -> passesKeyGate (Network.relayerKey n) = false.
Proof.
  intros H. destruct (passesKeyGate _) eqn:E; [|done]. exfalso.
  apply passesKeyGate_spec in E as (k & Hk & Hvalid).
  destruct H as [H | (k' & Hk' & H)]; [congruence|].
  assert (k' = k) as -> by congruence.
  pose proof Hvalid as Hv. apply isValidCredential_spec in Hv.
  pose proof (valid_not_missing _ Hv) as Hm. unfold isMissingKey in Hm.
  apply orb_false_iff in Hm as [Hm H3]. apply orb_false_iff in Hm as [Hm H2].
  apply orb_false_iff in Hm as [_ H1].
  unfold JS.strictEq in *. apply String.eqb_neq in H1, H2, H3.
  destruct H as [H | [H | [H | H]]]; [|done..].
  by apply trim_blank in H.
Qed.

(** Effects of a batch: those of its networks, in order. *)
Lemma foldl_recordEntry_effects q order acc :
  (foldl (recordEntry q) acc order).1
  = acc.1 ++ concat ((fun n => (fetchNetwork q n).1) <$> order).
Proof.
  revert acc. induction order as [|n order IH]; intros acc; simpl.
  - by rewrite app_nil_r.
  - rewrite IH. unfold recordEntry.
    destruct (fetchNetwork q n) as [effs [e|]]; simpl; by rewrite <- app_assoc.
Qed.

Lemma foldl_recordEntry_other q order acc (key : string) :
  key ∉ Network.name <$> order ->
  (foldl (recordEntry q) acc order).2 !! key = acc.2 !! key.
Proof.
  revert acc. induction order as [|n order IH]; intros acc; simpl; [done|].
  rewrite not_elem_of_cons. intros [Hne Hnot]. rewrite IH by done.
  unfold recordEntry. destruct (fetchNetwork q n) as [effs [e|]]; simpl; [|done].
  by rewrite lookup_insert_ne.
Qed.

Lemma foldl_recordEntry_lookup q order acc n :
  NoDup (Network.name <$> order) -> n ∈ order ->
  (foldl (recordEntry q) acc order).2 !! Network.name n
  = match (fetchNetwork q n).2 with
    | Some e => Some e
    | None => acc.2 !! Network.name n
    end.
Proof.
  revert acc. induction order as [|x order IH]; intros acc; [by intros _ ?%elem_of_nil|].
  rewrite fmap_cons, NoDup_cons. intros [Hx Hnd] Hin. simpl.
  apply elem_of_cons in Hin as [-> | Hin].
  - rewrite foldl_recordEntry_other by done. unfold recordEntry.
    destruct (fetchNetwork q x) as [effs [e|]]; simpl; [|done].
    by rewrite lookup_insert_eq.
  - rewrite IH by done. destruct (fetchNetwork q n).2; [done|].
    unfold recordEntry. destruct (fetchNetwork q x) as [effs [e|]]; simpl; [|done].
    rewrite lookup_insert_ne; [done|]. intros E. apply Hx. rewrite E.
    by apply list_elem_of_fmap_2.
Qed.

(** What the batch holds for a network of the catalog is what that
    network's own callback wrote, whatever the order of completion. *)
Lemma fetchBalances_lookup q order n :
  order ≡ₚ NETWORKS -> n ∈ NETWORKS ->
  (fetchBalances q order).2 !! Network.name n = (fetchNetwork q n).2.
Proof.
  intros Hp Hin. unfold fetchBalances.
  rewrite foldl_recordEntry_lookup; [| by apply order_names_NoDup | by rewrite Hp].
  simpl. rewrite lookup_empty. by destruct (fetchNetwork q n).2.
Qed.

Lemma fetchBalances_order q order :
  order ≡ₚ NETWORKS -> (fetchBalances q order).2 = (fetchBalances q NETWORKS).2.
Proof.
  intros Hp. apply map_eq. intros key.
  destruct (decide (key ∈ Network.name <$> NETWORKS)) as [Hin | Hnot].
  - apply list_elem_of_fmap in Hin as (n & -> & Hin).
    by rewrite !fetchBalances_lookup.
  - unfold fetchBalances. rewrite !foldl_recordEntry_other; [done | done |].
    by rewrite Hp.
Qed.

(** C3.  When the query of a network of the catalog fails, the batch
    still runs to its end and commits; it holds the fallback entry
    [{balance: "0.0000", currency}] for that network; every other
    network's entry is the one its own callback produced, and is the same
    as in a world that differs only in the failing network's answers. *)
Theorem C3_failed_query_is_isolated q order n :
  order ≡ₚ NETWORKS -> n ∈ NETWORKS -> queryFails q n ->
  (fetchBalances q order).2 !! Network.name n
    = Some {| BalanceEntry.balance := "0.0000";
              BalanceEntry.currency := Network.currency n |}
  /\ (forall n', n' ∈ NETWORKS -> n' <> n ->
        (fetchBalances q order).2 !! Network.name n' = (fetchNetwork q n').2)
  /\ (forall q', (forall n' a, n' <> n -> q' n' a = q n' a) ->
        forall n', n' ∈ NETWORKS -> n' <> n ->
        (fetchBalances q' order).2 !! Network.name n'
        = (fetchBalances q order).2 !! Network.name n')
  /\ (forall st,
        settle MultiFetchPending (MultiFetchSettled q) st
        = Some (commitMultiNetworkBalances (fetchBalances q order).2 st, [])).
Proof.
  intros Hp Hin Hfail. repeat split.
  - rewrite fetchBalances_lookup by done. by apply fetchNetwork_failed.
  - intros n' Hin' _. by apply fetchBalances_lookup.
  - intros q' Hq n' Hin' Hne. rewrite !fetchBalances_lookup by done.
    f_equal. apply fetchNetwork_ext. intros a. by apply Hq.
  - intros st. simpl. by rewrite (fetchBalances_order q order).
Qed.

(** C5.  A network of the catalog whose credential is absent, blank, one
    of the placeholders ["0x..."] and ["0x"], or not of the 64-hex-digit
    format gets no entry in the result, and the batch opens no connection
    and issues no balance query for it. *)
Theorem C5_unusable_credential_skipped q order n :
  order ≡ₚ NETWORKS -> n ∈ NETWORKS -> credentialUnusable n ->
  (fetchBalances q order).2 !! Network.name n = None
  /\ Forall (fun e => effectNetwork e <> Network.name n) (fetchBalances q order).1.
Proof.
  intros Hp Hin Hbad. apply credentialUnusable_gate in Hbad.
  pose proof (fetchNetwork_gated q n Hbad) as Hskip. split.
  - rewrite fetchBalances_lookup by done. by rewrite Hskip.
  - unfold fetchBalances. rewrite foldl_recordEntry_effects. simpl.
    apply Forall_concat, Forall_fmap, Forall_forall. intros n' Hin'. simpl.
    destruct (decide (n' = n)) as [-> | Hne]; [rewrite Hskip; constructor|].
    eapply Forall_impl; [apply fetchNetwork_tags|]. simpl. intros e -> E.
    apply Hne. apply (name_inj_on NETWORKS); [apply NETWORKS_names_NoDup | done | | done].
    by rewrite <- Hp.
Qed.
End FetchProperties.


(** ** initializeProvider and updateUserPrivateKey *)

Section OperationProperties.
Context {env : ImportMetaEnv} {ethers : Ethers}.
Implicit Types (st prev current : EnvWalletState) (s : Sys) (k key : string).

Lemma not_blank_isEmptyKey k : ~ Blank k -> isEmptyKey k = false.
Proof.
  intros H. destruct (isEmptyKey k) eqn:E; [|done].
  by apply isEmptyKey_blank in E.
Qed.

Lemma not_blank_truthy k : ~ Blank k -> JS.truthy k = true.
Proof.
  intros H. apply not_blank_isEmptyKey in H. unfold isEmptyKey in H.
  apply orb_false_iff in H as [H _]. by apply negb_false_iff in H.
Qed.

Lemma commitInitError_sameButError msg st :
  error (commitInitError msg st) = Some msg /\ sameButError st (commitInitError msg st).
Proof. by repeat split. Qed.

(** At its call, [initializeProvider] has either failed, and then only the
    error was recorded, or it is suspended and nothing was committed. *)
Lemma initializeProvider_cases st :
  (exists msg, initializeProvider st = (commitInitError msg st, []))
  \/ (exists p w, initializeProvider st = (st, [InitPending p w])).
Proof.
  unfold initializeProvider, initCatch.
  destruct VITE_RELAYER_PRIVATE_KEY as [rk|]; [|left; by eexists].
  destruct VITE_RPC_URL as [url|]; [|left; by eexists].
  destruct (negb _ || negb _); [left; by eexists|].
  destruct (JsonRpcProvider url) as [p|e]; [|left; by eexists].
  destruct (newWallet rk p) as [w|e]; [right; by eexists _, _ | left; by eexists].
Qed.

(** C7.  Every failing execution of [initializeProvider] commits
    [{...prev, error: message}] and nothing else: when the RPC URL or the
    relayer key is missing from the configuration, when opening the
    connection or deriving the relayer wallet throws, and when the chain-id
    or the balance query rejects after the suspension (then [prev] is the
    state committed at that moment).  That commit records the message in
    [error] and leaves every other field, the provider included, as it
    was; an execution that has not failed at its call has committed
    nothing yet. *)
Theorem C7_initialize_failure_only_records_error (st : EnvWalletState) :
  (JS.truthyOpt VITE_RPC_URL = false \/ JS.truthyOpt VITE_RELAYER_PRIVATE_KEY = false ->
     initializeProvider st = (commitInitError configurationMessage st, []))
  /\ (forall rk url e,
        VITE_RELAYER_PRIVATE_KEY = Some rk -> VITE_RPC_URL = Some url ->
        JS.truthy rk = true -> JS.truthy url = true ->
        JsonRpcProvider url = Throw e ->
        initializeProvider st
        = (commitInitError (errorMessage e "Failed to initialize provider") st, []))
  /\ (forall rk url p e,
        VITE_RELAYER_PRIVATE_KEY = Some rk -> VITE_RPC_URL = Some url ->
        JS.truthy rk = true -> JS.truthy url = true ->
        JsonRpcProvider url = Normal p -> newWallet rk p = Throw e ->
        initializeProvider st
        = (commitInitError (errorMessage e "Failed to initialize provider") st, []))
  /\ (forall p w e balance,
        initializeProviderResume p w (Throw e) balance st
        = commitInitError (errorMessage e "Failed to initialize provider") st)
  /\ (forall p w cid e,
        initializeProviderResume p w (Normal cid) (Throw e) st
        = commitInitError (errorMessage e "Failed to initialize provider") st)
  /\ (forall msg,
        error (commitInitError msg st) = Some msg
        /\ sameButError st (commitInitError msg st))
  /\ ((exists msg, initializeProvider st = (commitInitError msg st, []))
      \/ (exists p w, initializeProvider st = (st, [InitPending p w]))).
Proof.
  split; [|split; [|split; [|split; [|split; [|split]]]]].
  - unfold initializeProvider. intros H.
    destruct VITE_RELAYER_PRIVATE_KEY as [rk|]; [|done].
    destruct VITE_RPC_URL as [url|]; [|done]. simpl in H.
    destruct H as [-> | ->]; [by rewrite orb_true_r | done].
  - intros rk url e Hk Hu Tk Tu Hp. unfold initializeProvider.
    by rewrite Hk, Hu, Tk, Tu, Hp.
  - intros rk url p e Hk Hu Tk Tu Hp Hw. unfold initializeProvider.
    by rewrite Hk, Hu, Tk, Tu, Hp, Hw.
  - done.
  - done.
  - intros msg. apply commitInitError_sameButError.
  - apply initializeProvider_cases.
Qed.

(** C9.  With an empty or blank key, [updateUserPrivateKey] commits
    [currentUserPrivateKey: ''], [userWallet: null], [userAddress: null],
    [userBalance: null], [isConfigured: false] in one update, whatever the
    state (with or without a provider), touches no other field, leaves
    nothing pending, and doing it again yields the same state. *)
Theorem C9_blank_key_clears_user k st :
  Blank k ->
  let next := (updateUserPrivateKey k st).1 in
  (updateUserPrivateKey k st).2 = []
  /\ (currentUserPrivateKey next = Some ""
      /\ userWallet next = None
      /\ userAddress next = None
      /\ userBalance next = None
      /\ isConfigured next = false)
  /\ (relayerWallet next = relayerWallet st
      /\ provider next = provider st
      /\ relayerAddress next = relayerAddress st
      /\ relayerBalance next = relayerBalance st
      /\ multiNetworkBalances next = multiNetworkBalances st
      /\ chainId next = chainId st
      /\ error next = error st)
  /\ updateUserPrivateKey k next = (next, [])
  /\ (forall s, step (step s (Call (OpUpdateUserPrivateKey k))) (Call (OpUpdateUserPrivateKey k))
                = step s (Call (OpUpdateUserPrivateKey k))).
Proof.
  intros Hb. apply isEmptyKey_blank in Hb.
  assert (forall st', updateUserPrivateKey k st' = (commitClearUser st', [])) as E.
  { intros st'. unfold updateUserPrivateKey. by rewrite Hb. }
  simpl. rewrite !E. simpl. repeat split.
  intros s. unfold step, runOperation. rewrite !E. simpl. by rewrite !app_nil_r.
Qed.

(** C10.  With a key that is not blank, a provider and a wallet derived
    without a throw, the update that installs the wallet keeps
    [userBalance] at its prior value and leaves exactly one balance query
    pending; [userBalance] is then written when that query resolves, and
    not at all when it rejects. *)
Theorem C10_wallet_commit_keeps_userBalance k st p w :
  ~ Blank k -> provider st = Some p -> newWallet k p = Normal w ->
  updateUserPrivateKey k st = (commitUserWallet k w st, [UserBalanceQuery p (address w)])
  /\ userWallet (commitUserWallet k w st) = Some w
  /\ userBalance (commitUserWallet k w st) = userBalance st
  /\ (forall current b,
        userBalanceSettled (Normal b) current = commitUserBalance (formatEther b) current
        /\ userBalance (userBalanceSettled (Normal b) current) = Some (formatEther b))
  /\ (forall current e, userBalanceSettled (Throw e) current = current).
Proof.
  intros Hk Hp Hw. apply not_blank_isEmptyKey in Hk.
  unfold updateUserPrivateKey. by rewrite Hk, Hp, Hw.
Qed.

Lemma update_without_provider k st :
  ~ Blank k -> provider st = None ->
  updateUserPrivateKey k st = (st, [RetryTimer 100 k]).
Proof.
  intros Hk Hp. apply not_blank_isEmptyKey in Hk.
  unfold updateUserPrivateKey. by rewrite Hk, Hp.
Qed.

Lemma update_with_provider k st p w :
  ~ Blank k -> provider st = Some p -> newWallet k p = Normal w ->
  updateUserPrivateKey k st = (commitUserWallet k w st, [UserBalanceQuery p (address w)]).
Proof.
  intros Hk Hp Hw. apply not_blank_isEmptyKey in Hk.
  unfold updateUserPrivateKey. by rewrite Hk, Hp, Hw.
Qed.

(** The timer keeps firing into a hook that has no provider: nothing
    changes, and the timer is armed again each time. *)
Lemma waiting_is_stable k (n : nat) :
  ~ Blank k ->
  foldl step {| committed := initialState; pending := [RetryTimer 100 k] |}
        (replicate n (Settle 0 TimerFired))
  = {| committed := initialState; pending := [RetryTimer 100 k] |}.
Proof.
  intros Hk. induction n as [|n IH]; [done|].
  simpl. by rewrite update_without_provider.
Qed.

(** C8 (amended).  For a key that is not blank ("empty key" is the source's
    name for its first branch) and from which a wallet is derived: called
    without a provider, [updateUserPrivateKey]
    commits nothing and arms a 100 ms timer; each time the timer fires
    while there is still no provider it again commits nothing and arms the
    same timer, any number of times; when it fires with a provider it
    commits the wallet derived from the key; so, from the initial state,
    one call, any number [n] of firings, and a successful
    [initializeProvider] lead, at the next firing and with no further call
    of the operation, to the user wallet being committed. *)
Theorem C8_retry_until_provider k :
  ~ Blank k ->
  (forall s, provider (committed s) = None ->
     step s (Call (OpUpdateUserPrivateKey k))
     = {| committed := committed s; pending := pending s ++ [RetryTimer 100 k] |})
  /\ (forall s i d, provider (committed s) = None ->
        pending s !! i = Some (RetryTimer d k) ->
        step s (Settle i TimerFired)
        = {| committed := committed s;
             pending := delete i (pending s) ++ [RetryTimer 100 k] |})
  /\ (forall s i d p w, provider (committed s) = Some p ->
        pending s !! i = Some (RetryTimer d k) ->
        newWallet k p = Normal w ->
        step s (Settle i TimerFired)
        = {| committed := commitUserWallet k w (committed s);
             pending := delete i (pending s) ++ [UserBalanceQuery p (address w)] |})
  /\ (forall (n : nat) p rw cid b w,
        initializeProvider initialState = (initialState, [InitPending p rw]) ->
        newWallet k p = Normal w ->
        let waiting := Call (OpUpdateUserPrivateKey k) :: replicate n (Settle 0 TimerFired) in
        let connected := waiting ++ [Call OpReinitialize;
                                     Settle 1 (InitSettled (Normal cid) (Normal b))] in
        committed (run waiting) = initialState
        /\ pending (run waiting) = [RetryTimer 100 k]
        /\ userWallet (committed (run connected)) = None
        /\ pending (run connected) = [RetryTimer 100 k]
        /\ userWallet (committed (run (connected ++ [Settle 0 TimerFired]))) = Some w
        /\ userAddress (committed (run (connected ++ [Settle 0 TimerFired]))) = Some (address w)
        /\ isConfigured (committed (run (connected ++ [Settle 0 TimerFired]))) = true).
Proof.
  intros Hk. split; [|split; [|split]].
  - intros s Hp. unfold step, runOperation. by rewrite update_without_provider.
  - intros s i d Hp Hi. unfold step, settle. rewrite Hi.
    by rewrite update_without_provider.
  - intros s i d p w Hp Hi Hw. unfold step, settle. rewrite Hi.
    by rewrite (update_with_provider k _ p w).
  - intros n p rw cid b w Hinit Hw waiting connected.
    assert (run waiting = {| committed := initialState; pending := [RetryTimer 100 k] |}) as Ew.
    { unfold run, waiting. simpl. rewrite update_without_provider by done. simpl.
      by apply waiting_is_stable. }
    assert (run connected
            = {| committed := commitInitSuccess rw p (formatEther b) cid initialState;
                 pending := [RetryTimer 100 k] |}) as Ec.
    { unfold run, connected. rewrite foldl_app. fold (run waiting). rewrite Ew.
      simpl. by rewrite Hinit. }
    rewrite Ew, Ec. repeat split; try done.
    all: unfold run; rewrite foldl_app; fold (run connected); rewrite Ec; simpl.
    all: rewrite (update_with_provider k _ p w) by done; simpl; try done.
    by rewrite (not_blank_truthy k Hk).
Qed.
End OperationProperties.


(** ** Invariants of the committed state *)

Section Invariants.
Context {env : ImportMetaEnv} {ethers : Ethers}.
Implicit Types (st prev current : EnvWalletState) (s : Sys) (k key : string).

Lemma keepsConfiguration_refl st : keepsConfiguration st st.
Proof. by repeat split. Qed.

Lemma keepsConfiguration_exact prev next :
  keepsConfiguration prev next -> isConfiguredExact prev -> isConfiguredExact next.
Proof.
  unfold keepsConfiguration, isConfiguredExact, configuredCondition.
  intros (-> & -> & -> & ->). done.
Qed.

Lemma keepsConfiguration_wired prev next :
  keepsConfiguration prev next -> wired prev -> wired next.
Proof.
  unfold keepsConfiguration, wired. intros (_ & -> & -> & ->). done.
Qed.

Lemma initializeProvider_keeps st : keepsConfiguration st (initializeProvider st).1.
Proof.
  destruct (initializeProvider_cases st) as [[msg ->] | (p & w & ->)];
    by repeat split.
Qed.

Lemma refreshBalances_keeps st : keepsConfiguration st (refreshBalances st).1.
Proof. unfold refreshBalances. destruct (provider st); by repeat split. Qed.

Lemma refreshSettled_keeps promises rs st :
  keepsConfiguration st (refreshSettled promises rs st).
Proof. unfold refreshSettled. destruct (promiseAll rs); by repeat split. Qed.

Lemma userBalanceSettled_keeps r st : keepsConfiguration st (userBalanceSettled r st).
Proof. destruct r; by repeat split. Qed.

Lemma update_wired k st : wired st -> wired (updateUserPrivateKey k st).1.
Proof.
  unfold wired, updateUserPrivateKey. intros [H1 H2].
  destruct (isEmptyKey k); [by split|].
  destruct (provider st) as [p|] eqn:Ep; [|simpl; rewrite Ep; by split].
  destruct (newWallet k p); simpl; rewrite Ep; by split.
Qed.

Lemma update_exact k st :
  isConfiguredExact st -> isConfiguredExact (updateUserPrivateKey k st).1.
Proof.
  unfold updateUserPrivateKey. intros He.
  destruct (isEmptyKey k).
  { unfold isConfiguredExact, configuredCondition. simpl. by rewrite andb_false_r. }
  destruct (provider st) as [p|] eqn:Ep; [|done].
  destruct (newWallet k p) as [w|e]; [|done].
  unfold isConfiguredExact, configuredCondition. simpl. by rewrite Ep.
Qed.

Lemma resume_wired p w network balance st :
  wired st -> wired (initializeProviderResume p w network balance st).
Proof.
  intros Hw. destruct network as [cid|e]; [|done]. destruct balance as [b|e]; [|done].
  destruct Hw as [H1 H2]. by split.
Qed.

Lemma resume_exact p w network balance st :
  wired st -> isConfiguredExact st ->
  isConfiguredExact (initializeProviderResume p w network balance st).
Proof.
  intros [H1 H2] He. destruct network as [cid|e]; [|done].
  destruct balance as [b|e]; [|done].
  unfold isConfiguredExact, configuredCondition in *. simpl. rewrite He.
  destruct (JS.truthyOpt (currentUserPrivateKey st)); [|by rewrite !andb_false_r].
  specialize (H1 eq_refl). specialize (H2 H1). by rewrite H1, H2.
Qed.

Lemma runOperation_commit op st : Commit st (runOperation op st).1.
Proof.
  destruct op; simpl.
  - apply commit_keeps, initializeProvider_keeps.
  - by eapply commit_update.
  - apply commit_keeps, refreshBalances_keeps.
  - apply commit_keeps, keepsConfiguration_refl.
Qed.

Lemma settle_commit t o st st' ts :
  settle t o st = Some (st', ts) -> Commit st st'.
Proof.
  destruct t, o; simpl; try discriminate.
  - intros [= <- _]. by eapply commit_resume.
  - intros [= E]. eapply commit_update. by rewrite E.
  - intros [= <- _]. apply commit_keeps, userBalanceSettled_keeps.
  - case_bool_decide; [|discriminate]. intros [= <- _].
    apply commit_keeps, refreshSettled_keeps.
  - intros [= <- _]. apply commit_keeps. by repeat split.
Qed.

Lemma step_commit s ev : Commit (committed s) (committed (step s ev)).
Proof.
  destruct ev as [op | i o]; simpl.
  - pose proof (runOperation_commit op (committed s)) as H.
    by destruct (runOperation op (committed s)).
  - destruct (pending s !! i) as [t|]; [|apply commit_keeps, keepsConfiguration_refl].
    destruct (settle t o (committed s)) as [[st' ts]|] eqn:E;
      [|apply commit_keeps, keepsConfiguration_refl].
    simpl. by eapply settle_commit.
Qed.

Lemma Commit_wired prev next : Commit prev next -> wired prev -> wired next.
Proof.
  intros [H | key -> | p w network balance ->] Hs.
  - by eapply keepsConfiguration_wired.
  - by apply update_wired.
  - by apply resume_wired.
Qed.

Lemma Commit_exact prev next :
  Commit prev next -> wired prev -> isConfiguredExact prev -> isConfiguredExact next.
Proof.
  intros [H | key -> | p w network balance ->] Hw He.
  - by eapply keepsConfiguration_exact.
  - by apply update_exact.
  - by apply resume_exact.
Qed.

Lemma reachable_exact_wired s :
  reachable s -> isConfiguredExact (committed s) /\ wired (committed s).
Proof.
  induction 1 as [|s ev _ [IHe IHw]].
  - split; [done | by split].
  - pose proof (step_commit s ev) as Hc. split.
    + by eapply Commit_exact.
    + by eapply Commit_wired.
Qed.

Lemma reachable_run (evs : list Event) : reachable (run evs).
Proof.
  unfold run. induction evs as [|ev evs IH] using rev_ind; [constructor|].
  rewrite foldl_app. simpl. by constructor.
Qed.

(** No operation separates [userAddress] from [userWallet]: the address is
    null whenever the wallet is. *)
Lemma userAddress_follows_userWallet s :
  reachable s -> userWallet (committed s) = None -> userAddress (committed s) = None.
Proof.
  induction 1 as [|s ev _ IH]; [done|].
  destruct ev as [op | i o]; simpl.
  - destruct op; simpl.
    + destruct (initializeProvider_cases (committed s)) as [[msg ->] | (p & w & ->)]; done.
    + unfold updateUserPrivateKey. destruct (isEmptyKey _); [done|].
      destruct (provider _) as [p|]; [|done]. by destruct (newWallet _ p).
    + unfold refreshBalances. by destruct (provider _).
    + done.
  - destruct (pending s !! i) as [t|]; [|done].
    destruct (settle t o (committed s)) as [[st' ts]|] eqn:E; [|done]. simpl.
    destruct t, o; simpl in E; try discriminate.
    + injection E as <- _. destruct network; [|done]. by destruct balance.
    + injection E as E. revert E. unfold updateUserPrivateKey.
      destruct (isEmptyKey _); [by intros [= <- _]|].
      destruct (provider _) as [p|]; [|by intros [= <- _]].
      destruct (newWallet _ p); by intros [= <- _].
    + injection E as <- _. by destruct r.
    + case_bool_decide; [|discriminate]. injection E as <- _.
      unfold refreshSettled. by destruct (promiseAll rs).
    + injection E as <- _. done.
Qed.

(** C1.  In every state the hook can reach, that is after every operation
    and every asynchronous completion (initialize, updateUserPrivateKey
    with an empty or a non-empty key, its retries, the case in which the
    wallet derivation throws, refresh, the multi-network fetch),
    [isConfigured] is true if and only if the relayer wallet is present,
    the provider is present and the current user key is non-empty. *)
Theorem C1_isConfigured_iff_preconditions s :
  reachable s ->
  isConfigured (committed s) = true
  <-> JS.truthyObj (relayerWallet (committed s)) = true
      /\ JS.truthyObj (provider (committed s)) = true
      /\ JS.truthyOpt (currentUserPrivateKey (committed s)) = true.
Proof.
  intros Hr. destruct (reachable_exact_wired s Hr) as [He _].
  unfold isConfiguredExact, configuredCondition in He. rewrite He.
  rewrite !andb_true_iff. tauto.
Qed.

Lemma promiseAll_resolved {A} (l : list A) : promiseAll (Normal <$> l) = Normal l.
Proof.
  induction l as [|a l IH]; [done|].
  rewrite fmap_cons. cbn [promiseAll]. by rewrite IH.
Qed.

Lemma promiseAll_rejected {A} (rs : list (Completion A)) e :
  Throw e ∈ rs -> exists e', promiseAll rs = Throw e'.
Proof.
  induction rs as [|r rs IH]; [by intros ?%elem_of_nil|].
  intros [<- | Hin]%elem_of_cons; [by eexists|].
  destruct r as [a|e0]; [|by eexists]. simpl.
  destruct (IH Hin) as [e' ->]. by eexists.
Qed.

(** C4 (amended).  A refresh issues one tagged query per wallet present,
    the user's first, and commits nothing at its call.  When all of its
    queries resolve, one update merges them into the state committed at
    that moment: the user's result into [userBalance], the relayer's into
    [relayerBalance], a role that was not queried keeping the value that
    state has (so a balance another refresh committed in between is not
    lost), and every other field untouched.  When any of its queries
    rejects, the refresh commits nothing. *)
Theorem C4_refresh_merges_all_or_nothing prev current rs :
  length rs = length (refreshPromises prev) ->
  let next := refreshSettled (refreshPromises prev) rs current in
  (forall p, provider prev = Some p ->
     refreshBalances prev
     = (prev, [RefreshQueries p (refreshPromises prev); MultiFetchPending]))
  /\ (forall s i p,
        pending s !! i = Some (RefreshQueries p (refreshPromises prev)) ->
        committed (step s (Settle i (RefreshSettled rs)))
        = refreshSettled (refreshPromises prev) rs (committed s))
  /\ sameButBalances current next
  /\ (forall e, Throw e ∈ rs -> next = current)
  /\ (forall bs, rs = Normal <$> bs ->
        userBalance next
        = match userWallet prev with
          | Some _ => formatEther <$> head bs
          | None => userBalance current
          end
        /\ relayerBalance next
           = match relayerWallet prev with
             | Some _ => formatEther <$> last bs
             | None => relayerBalance current
             end).
Proof.
  intros Hlen next. split; [|split; [|split; [|split]]].
  - intros p Hp. unfold refreshBalances. by rewrite Hp.
  - intros s i p Hi. unfold step, settle. rewrite Hi.
    by rewrite bool_decide_eq_true_2.
  - unfold next, refreshSettled. destruct (promiseAll rs); by repeat split.
  - intros e Hin. unfold next, refreshSettled.
    by destruct (promiseAll_rejected rs e Hin) as [e' ->].
  - intros bs ->. unfold next, refreshSettled. rewrite promiseAll_resolved.
    rewrite length_fmap in Hlen. unfold refreshPromises in *.
    destruct (userWallet prev) as [uw|], (relayerWallet prev) as [rw|];
      simpl in Hlen; destruct bs as [|b1 [|b2 [|b3 bs]]]; try discriminate Hlen;
      by split.
Qed.
End Invariants.

(** ** The model at the sample configuration *)

Section Samples.
#[local] Existing Instance sampleEnv.
#[local] Existing Instance sampleEthers.

Lemma sampleUserKey_not_blank : ~ Blank sampleUserKey.
Proof. intros H. apply isEmptyKey_blank in H. vm_compute in H. discriminate H. Qed.

(** Without the primary RPC URL, [initializeProvider] records the
    configuration message and keeps the rest of the state. *)
Example initialize_unconfigured :
  initializeProvider (env := unconfiguredEnv) (committed (run withUser))
  = (commitInitError configurationMessage (committed (run withUser)), []).
Proof. reflexivity. Qed.

(** C1 at the sample run [withUser], where all three preconditions hold. *)
Lemma C1_witness :
  reachable (run withUser)
  /\ (isConfigured (committed (run withUser)) = true
      <-> JS.truthyObj (relayerWallet (committed (run withUser))) = true
          /\ JS.truthyObj (provider (committed (run withUser))) = true
          /\ JS.truthyOpt (currentUserPrivateKey (committed (run withUser))) = true).
Proof.
  split; [apply reachable_run|].
  exact (C1_isConfigured_iff_preconditions (run withUser) (reachable_run withUser)).
Defined.

(** After a call whose wallet derivation throws, nothing has changed:
    the relayer wallet and the provider are present, no key is remembered,
    and [isConfigured] is false. *)
Example refused_key_commits_nothing :
  run (mounted ++ [Call (OpUpdateUserPrivateKey "not-a-key")]) = run mounted.
Proof. reflexivity. Qed.

(** C2 at its failing input: the hook is mounted, a user key is set, the
    user is cleared, and only then the balance query of the first call
    resolves.  The committed state has no user wallet and no user address
    but a user balance. *)
Lemma C2_balance_committed_without_wallet :
  let st := committed (run (mounted ++ [Call (OpUpdateUserPrivateKey sampleUserKey);
                                         Call (OpUpdateUserPrivateKey "");
                                         Settle 0 (BalanceSettled (Normal 5))])) in
  userWallet st = None /\ userAddress st = None /\ userBalance st = Some "1.0".
Proof. by vm_compute. Qed.

(** C4, as stated, fails: with both wallets present, a refresh whose user
    query resolves (to a balance formatted "1.0") and whose relayer query
    rejects commits nothing; [userBalance] stays "0.0". *)
Lemma C4_resolved_role_dropped_on_rejection :
  let before := run withUser in
  let after := run (withUser ++ [Call OpRefreshBalances;
                                 Settle 0 (RefreshSettled [Normal 5;
                                                           Throw (ErrorObject "timeout")])]) in
  pending (step before (Call OpRefreshBalances))
  = [RefreshQueries {| providerUrl := "http://localhost:8545" |}
       [(User, "addr:" +:+ sampleUserKey); (Relayer, "addr:" +:+ sampleKey)];
     MultiFetchPending]
  /\ formatEther 5 = "1.0"
  /\ userBalance (committed before) = Some "0.0"
  /\ userBalance (committed after) = Some "0.0"
  /\ committed after = committed before.
Proof. by vm_compute. Qed.

(** C4 at a refresh of the sample run whose two queries resolve. *)
Lemma C4_witness :
  let prev := committed (run withUser) in
  length [Normal 7; Normal 0] = length (refreshPromises prev)
  /\ userBalance (refreshSettled (refreshPromises prev) [Normal 7; Normal 0] prev)
     = Some "1.0"
  /\ relayerBalance (refreshSettled (refreshPromises prev) [Normal 7; Normal 0] prev)
     = Some "0.0".
Proof.
  split; [reflexivity|].
  exact (proj2 (proj2 (proj2 (proj2 (C4_refresh_merges_all_or_nothing
                                (committed (run withUser)) (committed (run withUser))
                                [Normal 7; Normal 0] eq_refl))))
           [7; 0] eq_refl).
Defined.

(** C3 with the query against BSC failing and the callbacks completing in
    reverse order. *)
Lemma C3_witness :
  let bsc := {| Network.id := 56; Network.name := "BSC";
                Network.rpcUrl := "http://localhost:8545";
                Network.currency := "BNB";
                Network.relayerKey := Some sampleKey |} in
  reverse NETWORKS ≡ₚ NETWORKS
  /\ bsc ∈ NETWORKS
  /\ queryFails bscDown bsc
  /\ (fetchBalances bscDown (reverse NETWORKS)).2 !! "BSC"
     = Some {| BalanceEntry.balance := "0.0000"; BalanceEntry.currency := "BNB" |}.
Proof.
  intros bsc.
  assert (reverse NETWORKS ≡ₚ NETWORKS) as Hp by apply reverse_Permutation.
  assert (bsc ∈ NETWORKS) as Hin by apply list_elem_of_here.
  assert (queryFails bscDown bsc) as Hq.
  { exists sampleKey, (ErrorObject "timeout"). by vm_compute. }
  split; [exact Hp|]. split; [exact Hin|]. split; [exact Hq|].
  exact (proj1 (C3_failed_query_is_isolated bscDown (reverse NETWORKS) bsc Hp Hin Hq)).
Defined.

(** C5 at the network "Ethereum", whose key is the placeholder. *)
Lemma C5_witness :
  let eth := {| Network.id := 1; Network.name := "Ethereum";
                Network.rpcUrl := "https://eth.llamarpc.com";
                Network.currency := "ETH";
                Network.relayerKey := Some "0x..." |} in
  reverse NETWORKS ≡ₚ NETWORKS
  /\ eth ∈ NETWORKS
  /\ credentialUnusable eth
  /\ (fetchBalances allUp (reverse NETWORKS)).2 !! "Ethereum" = None.
Proof.
  intros eth.
  assert (reverse NETWORKS ≡ₚ NETWORKS) as Hp by apply reverse_Permutation.
  assert (eth ∈ NETWORKS) as Hin by apply list_elem_of_further, list_elem_of_here.
  assert (credentialUnusable eth) as Hbad.
  { right. exists "0x...". split; [done|]. right. by left. }
  split; [exact Hp|]. split; [exact Hin|]. split; [exact Hbad|].
  exact (proj1 (C5_unusable_credential_skipped allUp (reverse NETWORKS) eth Hp Hin Hbad)).
Defined.

(** C8, as stated, fails for a non-empty key from which no wallet can be
    derived.  The key "not-a-key" is not empty; called without a provider
    it arms the retry timer; the provider then arrives; the timer fires,
    the derivation throws, nothing is committed and the timer is not armed
    again: there is no user wallet and nothing is left pending that could
    commit one. *)
Lemma C8_refused_key_never_commits :
  let waiting := [Call (OpUpdateUserPrivateKey "not-a-key")] in
  let connected := waiting ++ [Call OpReinitialize;
                               Settle 1 (InitSettled (Normal 56) (Normal 0))] in
  let fired := connected ++ [Settle 0 TimerFired] in
  isEmptyKey "not-a-key" = false
  /\ provider (committed initialSys) = None
  /\ run waiting = {| committed := initialState;
                      pending := [RetryTimer 100 "not-a-key"] |}
  /\ JS.truthyObj (provider (committed (run connected))) = true
  /\ pending (run connected) = [RetryTimer 100 "not-a-key"]
  /\ userWallet (committed (run fired)) = None
  /\ committed (run fired) = committed (run connected)
  /\ pending (run fired) = [].
Proof. by vm_compute. Qed.

(** C8 with three firings of the timer before the provider arrives. *)
Lemma C8_witness :
  ~ Blank sampleUserKey
  /\ userWallet
       (committed
          (run (Call (OpUpdateUserPrivateKey sampleUserKey)
                :: replicate 3 (Settle 0 TimerFired)
                ++ [Call OpReinitialize;
                    Settle 1 (InitSettled (Normal 56) (Normal 0));
                    Settle 0 TimerFired])))
     = Some {| address := "addr:" +:+ sampleUserKey;
               walletProvider := {| providerUrl := "http://localhost:8545" |} |}.
Proof.
  split; [exact sampleUserKey_not_blank|].
  exact (proj1 (proj2 (proj2 (proj2 (proj2
           (proj2 (proj2 (proj2 (C8_retry_until_provider sampleUserKey
                                   sampleUserKey_not_blank)))
              3%nat {| providerUrl := "http://localhost:8545" |}
              {| address := "addr:" +:+ sampleKey;
                 walletProvider := {| providerUrl := "http://localhost:8545" |} |}
              56 0
              {| address := "addr:" +:+ sampleUserKey;
                 walletProvider := {| providerUrl := "http://localhost:8545" |} |}
              eq_refl eq_refl)))))).
Defined.

(** C9 with a key of two spaces, on a state that has a user wallet. *)
Lemma C9_witness :
  Blank "  "
  /\ userWallet (updateUserPrivateKey "  " (committed (run withUser))).1 = None
  /\ userBalance (updateUserPrivateKey "  " (committed (run withUser))).1 = None
  /\ currentUserPrivateKey (updateUserPrivateKey "  " (committed (run withUser))).1 = Some "".
Proof.
  assert (Blank "  ") as Hb by (by repeat constructor).
  split; [exact Hb|].
  pose proof (C9_blank_key_clears_user "  " (committed (run withUser)) Hb)
    as (_ & (Hkey & Hw & _ & Hbal & _) & _).
  by repeat split.
Defined.

(** C10 at the first user key set on the mounted hook. *)
Lemma C10_witness :
  let st := committed (run mounted) in
  let p := {| providerUrl := "http://localhost:8545" |} in
  let w := {| address := "addr:" +:+ sampleUserKey; walletProvider := p |} in
  ~ Blank sampleUserKey
  /\ provider st = Some p
  /\ newWallet sampleUserKey p = Normal w
  /\ userBalance (commitUserWallet sampleUserKey w st) = userBalance st.
Proof.
  intros st p w. split; [exact sampleUserKey_not_blank|].
  split; [reflexivity|]. split; [reflexivity|].
  exact (proj1 (proj2 (proj2 (C10_wallet_commit_keeps_userBalance sampleUserKey st p w
                                sampleUserKey_not_blank eq_refl eq_refl)))).
Defined.
End Samples.


(** ** More on fetchMultiNetworkBalances and the catalog *)

Section FetchCoverage.
Context {env : ImportMetaEnv} {ethers : Ethers}.
Implicit Types (q : Network.t -> string -> Completion Z) (n : Network.t).
Implicit Types (order : list Network.t).

Lemma fetchNetwork_entry_iff q n :
  is_Some (fetchNetwork q n).2 <-> passesKeyGate (Network.relayerKey n) = true.
Proof.
  destruct (passesKeyGate (Network.relayerKey n)) eqn:E.
  - split; [done|]. intros _. unfold fetchNetwork, passesKeyGate in *.
    destruct (Network.relayerKey n) as [k|]; [|done].
    apply andb_true_iff in E as [Hm Hv]. apply negb_true_iff in Hm.
    rewrite Hm, Hv. simpl. by destruct (tryQuery q n k) as [effs [b|e]].
  - rewrite (fetchNetwork_gated q n E). simpl. split; [by intros [? ?] | done].
Qed.

Lemma fetchNetwork_currency q n e :
  (fetchNetwork q n).2 = Some e -> BalanceEntry.currency e = Network.currency n.
Proof.
  unfold fetchNetwork. destruct (isMissingKey _); [done|].
  destruct (Network.relayerKey n) as [k|]; [|done]. destruct (negb _); [done|].
  destruct (tryQuery q n k) as [effs [b|err]]; by intros [= <-].
Qed.

Lemma fetchNetwork_trace q n : callbackTrace n (fetchNetwork q n).1.
Proof.
  unfold fetchNetwork, tryQuery, callbackTrace. destruct (isMissingKey _); [by left|].
  destruct (Network.relayerKey n) as [k|]; [|by left]. destruct (negb _); [by left|].
  destruct (JsonRpcProvider _) as [p|]; [|by right; left].
  destruct (newWallet k p) as [w|]; [|by right; left].
  destruct (q n (address w)); right; right; by eexists.
Qed.

Lemma fetchBalances_foreign_key q order (key : string) :
  order ≡ₚ NETWORKS -> key ∉ Network.name <$> NETWORKS ->
  (fetchBalances q order).2 !! key = None.
Proof.
  intros Hp Hnot. unfold fetchBalances.
  rewrite foldl_recordEntry_other; [done|]. by rewrite Hp.
Qed.

Lemma filter_tag_all (l : list Effect) (key : string) :
  Forall (fun e => effectNetwork e = key) l ->
  filter (fun e => effectNetwork e = key) l = l.
Proof.
  induction 1 as [|e l He _ IH]; [done|].
  rewrite filter_cons_True by done. by rewrite IH.
Qed.

Lemma filter_tag_none (l : list Effect) (key key' : string) :
  key' <> key -> Forall (fun e => effectNetwork e = key') l ->
  filter (fun e => effectNetwork e = key) l = [].
Proof.
  intros Hne. induction 1 as [|e l He _ IH]; [done|].
  rewrite filter_cons_False; [done|]. congruence.
Qed.

Lemma effects_of_absent_network q order n :
  Network.name n ∉ Network.name <$> order ->
  filter (fun e => effectNetwork e = Network.name n)
         (concat ((fun x => (fetchNetwork q x).1) <$> order)) = [].
Proof.
  induction order as [|x order IH]; [done|].
  rewrite fmap_cons, not_elem_of_cons. intros [Hne Hnot].
  rewrite fmap_cons. simpl. rewrite filter_app, IH by done.
  rewrite (filter_tag_none _ _ (Network.name x)); [done | done |].
  apply fetchNetwork_tags.
Qed.

Lemma effects_of_network q order n :
  NoDup (Network.name <$> order) -> n ∈ order ->
  filter (fun e => effectNetwork e = Network.name n)
         (concat ((fun x => (fetchNetwork q x).1) <$> order))
  = (fetchNetwork q n).1.
Proof.
  induction order as [|x order IH]; [by intros _ ?%elem_of_nil|].
  rewrite fmap_cons, NoDup_cons. intros [Hx Hnd] Hin.
  rewrite fmap_cons. simpl. rewrite filter_app.
  apply elem_of_cons in Hin as [-> | Hin].
  - rewrite effects_of_absent_network by done.
    rewrite filter_tag_all by apply fetchNetwork_tags. by rewrite app_nil_r.
  - rewrite IH by done.
    rewrite (filter_tag_none _ _ (Network.name x)); [done | | apply fetchNetwork_tags].
    intros E. apply Hx. rewrite E. by apply list_elem_of_fmap_2.
Qed.

Lemma fetchBalances_entry_iff q order (key : string) :
  order ≡ₚ NETWORKS ->
  is_Some ((fetchBalances q order).2 !! key)
  <-> exists n, n ∈ NETWORKS /\ Network.name n = key
                /\ passesKeyGate (Network.relayerKey n) = true.
Proof.
  intros Hp. split.
  - intros Hsome.
    destruct (decide (key ∈ Network.name <$> NETWORKS)) as [Hin | Hnot].
    + apply list_elem_of_fmap in Hin as (n & -> & Hin). exists n.
      split; [done|]. split; [done|].
      rewrite fetchBalances_lookup in Hsome by done.
      by apply fetchNetwork_entry_iff in Hsome.
    + rewrite fetchBalances_foreign_key in Hsome by done. by destruct Hsome.
  - intros (n & Hin & <- & Hgate). rewrite fetchBalances_lookup by done.
    by apply fetchNetwork_entry_iff.
Qed.

(** X1.  The result of a batch has an entry under a name exactly when that name
    is the name of a catalog network whose key passes the gate of lines
    95-105: such a network always gets an entry (the balance or the
    fallback), and nothing else is ever written. *)
Theorem fetch_entries_exactly_gated q order (key : string) :
  order ≡ₚ NETWORKS ->
  is_Some ((fetchBalances q order).2 !! key)
  <-> exists n, n ∈ NETWORKS /\ Network.name n = key
                /\ passesKeyGate (Network.relayerKey n) = true.
Proof. apply fetchBalances_entry_iff. Qed.

(** X2.  A network whose connection, wallet and balance query all succeed gets
    the entry [{balance: formatEther(balance), currency}], and every entry
    of the result, fallback or not, carries the currency symbol of its
    network. *)
Theorem fetch_success_entry q order n k p w b :
  order ≡ₚ NETWORKS -> n ∈ NETWORKS ->
  Network.relayerKey n = Some k -> passesKeyGate (Some k) = true ->
  JsonRpcProvider (Network.rpcUrl n) = Normal p ->
  newWallet k p = Normal w ->
  q n (address w) = Normal b ->
  (fetchBalances q order).2 !! Network.name n
    = Some {| BalanceEntry.balance := formatEther b;
              BalanceEntry.currency := Network.currency n |}
  /\ (forall n' e, n' ∈ NETWORKS ->
        (fetchBalances q order).2 !! Network.name n' = Some e ->
        BalanceEntry.currency e = Network.currency n').
Proof.
  intros Hp Hin Hk Hgate Hprov Hw Hq. split.
  - rewrite fetchBalances_lookup by done. unfold fetchNetwork, tryQuery.
    unfold passesKeyGate in Hgate. apply andb_true_iff in Hgate as [Hm Hv].
    apply negb_true_iff in Hm. by rewrite Hk, Hm, Hv, Hprov, Hw, Hq.
  - intros n' e Hin' He. rewrite fetchBalances_lookup in He by done.
    by eapply fetchNetwork_currency.
Qed.

(** X3.  The result of a batch does not depend on the order in which the seven
    promises settle. *)
Theorem fetch_result_order_independent q order1 order2 :
  order1 ≡ₚ NETWORKS -> order2 ≡ₚ NETWORKS ->
  (fetchBalances q order1).2 = (fetchBalances q order2).2.
Proof.
  intros H1 H2. by rewrite (fetchBalances_order q order1), (fetchBalances_order q order2).
Qed.

Lemma fetchBalances_effects_of q order n :
  order ≡ₚ NETWORKS -> n ∈ NETWORKS ->
  let mine := filter (fun e => effectNetwork e = Network.name n)
                     (fetchBalances q order).1 in
  callbackTrace n mine
  /\ (passesKeyGate (Network.relayerKey n) = true <-> mine <> []).
Proof.
  intros Hp Hin mine.
  assert (mine = (fetchNetwork q n).1) as ->.
  { unfold mine, fetchBalances. rewrite foldl_recordEntry_effects. simpl.
    apply effects_of_network; [by apply order_names_NoDup | by rewrite Hp]. }
  split; [apply fetchNetwork_trace|].
  destruct (passesKeyGate (Network.relayerKey n)) eqn:E.
  - split; [|done]. intros _. unfold fetchNetwork, passesKeyGate, tryQuery in *.
    destruct (Network.relayerKey n) as [k|]; [|done].
    apply andb_true_iff in E as [Hm Hv]. apply negb_true_iff in Hm.
    rewrite Hm, Hv. simpl. destruct (JsonRpcProvider _) as [p|]; [|done].
    destruct (newWallet k p) as [w|]; [|done]. by destruct (q n (address w)).
  - rewrite (fetchNetwork_gated q n E). simpl. split; [done | by intros []].
Qed.

(** X4.  In one batch every catalog network is connected to at most once and
    asked for a balance at most once, and only after its connection was
    opened: the effects made for a network are none, one connection, or
    one connection followed by one query; a network that passes the gate
    always has its connection opened. *)
Theorem fetch_effects_per_network q order n :
  order ≡ₚ NETWORKS -> n ∈ NETWORKS ->
  let mine := filter (fun e => effectNetwork e = Network.name n)
                     (fetchBalances q order).1 in
  callbackTrace n mine
  /\ (passesKeyGate (Network.relayerKey n) = true <-> mine <> []).
Proof. apply fetchBalances_effects_of. Qed.

Lemma isMissingKey_spec k :
  isMissingKey (Some k) = true <-> Blank k \/ k = "0x..." \/ k = "0x".
Proof.
  unfold isMissingKey, JS.truthy, JS.strictEq.
  rewrite !orb_true_iff, negb_true_iff, negb_false_iff, !String.eqb_eq, trim_blank.
  split.
  - intros [[[-> | H] | H] | H]; [left; constructor | by left | by right; left | by right; right].
  - intros [H | [H | H]]; [by left; left; right | by left; right | by right].
Qed.

(** X5.  The first check of the callback (line 95) holds exactly for the keys
    that are undefined, blank, ["0x..."] or ["0x"]; it never decides
    whether a network is queried: a key gets past both checks exactly when
    it gets past the format check of line 102 alone. *)
Theorem key_gate_is_the_format_check (k : string) :
  (isMissingKey (Some k) = true <-> Blank k \/ k = "0x..." \/ k = "0x")
  /\ isMissingKey None = true
  /\ passesKeyGate (Some k) = isValidCredential k.
Proof.
  split; [apply isMissingKey_spec|]. split; [done|].
  unfold passesKeyGate. destruct (isValidCredential k) eqn:E; [|by rewrite andb_false_r].
  by rewrite (valid_not_missing k E).
Qed.

(** X6.  The test of line 204 holds exactly for the keys made of white space
    only, the empty key among them. *)
Theorem empty_key_test_is_blank (k : string) :
  (isEmptyKey k = true <-> Blank k)
  /\ (isEmptyKey k = false -> JS.truthy k = true /\ JS.trim k <> "").
Proof.
  split; [apply isEmptyKey_blank|]. unfold isEmptyKey, JS.strictEq.
  intros H. apply orb_false_iff in H as [H1 H2].
  apply negb_false_iff in H1. by apply String.eqb_neq in H2.
Qed.

Lemma or_falsy a b : JS.truthyOpt a = false -> JS.or a b = b.
Proof. unfold JS.or. by intros ->. Qed.

Lemma orDefault_truthy a d : JS.truthy d = true -> JS.truthy (JS.orDefault a d) = true.
Proof.
  intros Hd. unfold JS.orDefault. destruct a as [s|]; [|done].
  by destruct (JS.truthy s) eqn:E.
Qed.

Lemma or_choice a b : JS.or a b = a \/ JS.or a b = b.
Proof. unfold JS.or. destruct (JS.truthyOpt a); [by left | by right]. Qed.

(** X7.  Whatever the environment, every network of the catalog has a
    non-empty RPC URL, and its key is its own variable when that is set to
    a non-empty string and [VITE_RELAYER_PRIVATE_KEY] otherwise, whatever
    the other networks' variables are; the batch has an entry for the
    network exactly when that key passes the gate.  When none of the six
    network-specific keys is set, all seven networks use
    [VITE_RELAYER_PRIVATE_KEY]: the batch then has an entry for each of the
    seven names if that key passes the gate, and is empty if it does
    not. *)
Theorem catalog_falls_back_to_relayer_key q order :
  order ≡ₚ NETWORKS ->
  (forall n, n ∈ NETWORKS ->
     JS.truthy (Network.rpcUrl n) = true
     /\ Network.relayerKey n
        = (if JS.truthyOpt (ownKeyVariable (Network.name n))
           then ownKeyVariable (Network.name n)
           else VITE_RELAYER_PRIVATE_KEY)
     /\ (Network.relayerKey n = VITE_RELAYER_PRIVATE_KEY
         \/ JS.truthyOpt (Network.relayerKey n) = true)
     /\ (is_Some ((fetchBalances q order).2 !! Network.name n)
         <-> passesKeyGate (keyInUse (Network.name n)) = true))
  /\ (JS.truthyOpt VITE_ETHEREUM_RELAYER_PRIVATE_KEY = false ->
      JS.truthyOpt VITE_SEPOLIA_RELAYER_PRIVATE_KEY = false ->
      JS.truthyOpt VITE_ARBITRUM_RELAYER_PRIVATE_KEY = false ->
      JS.truthyOpt VITE_BASE_RELAYER_PRIVATE_KEY = false ->
      JS.truthyOpt VITE_POLYGON_RELAYER_PRIVATE_KEY = false ->
      JS.truthyOpt VITE_OPTIMISM_RELAYER_PRIVATE_KEY = false ->
      (forall n, n ∈ NETWORKS -> Network.relayerKey n = VITE_RELAYER_PRIVATE_KEY)
      /\ (passesKeyGate VITE_RELAYER_PRIVATE_KEY = true ->
          dom (fetchBalances q order).2
          = list_to_set ["BSC"; "Ethereum"; "Sepolia"; "Arbitrum"; "Base";
                         "Polygon"; "Optimism"])
      /\ (passesKeyGate VITE_RELAYER_PRIVATE_KEY = false ->
          (fetchBalances q order).2 = ∅)).
Proof.
  intros Hp. split.
  - intros n Hin.
    assert (JS.truthy (Network.rpcUrl n) = true) as Hurl.
    { pose proof Hin as Hin'. unfold NETWORKS in Hin'.
      repeat (apply elem_of_cons in Hin' as [-> | Hin']); [..|by apply elem_of_nil in Hin'];
        by apply orDefault_truthy. }
    assert (Network.relayerKey n = keyInUse (Network.name n)) as Hkey.
    { pose proof Hin as Hin'. unfold NETWORKS in Hin'.
      repeat (apply elem_of_cons in Hin' as [-> | Hin']); [..|by apply elem_of_nil in Hin'];
        unfold keyInUse, ownKeyVariable, JS.or; simpl; try done.
      by destruct (JS.truthyOpt VITE_RELAYER_PRIVATE_KEY). }
    split; [exact Hurl|]. split; [exact Hkey|]. split.
    + rewrite Hkey. unfold keyInUse.
      destruct (JS.truthyOpt (ownKeyVariable (Network.name n))) eqn:E; [by right | by left].
    + rewrite fetchBalances_lookup by done. rewrite fetchNetwork_entry_iff.
      by rewrite Hkey.
  - intros H1 H2 H3 H4 H5 H6.
    assert (forall n, n ∈ NETWORKS -> Network.relayerKey n = VITE_RELAYER_PRIVATE_KEY) as Hkeys.
    { intros n Hin. unfold NETWORKS in Hin.
      repeat (apply elem_of_cons in Hin as [-> | Hin]); [..|by apply elem_of_nil in Hin];
        simpl; try done; by apply or_falsy. }
    split; [exact Hkeys|]. split.
    + intros Hgate. apply set_eq. intros key.
      rewrite elem_of_dom, (fetchBalances_entry_iff q order key Hp).
      rewrite <- NETWORKS_names, elem_of_list_to_set, list_elem_of_fmap. split.
      * intros (n & Hin & <- & _). by exists n.
      * intros (n & -> & Hin). exists n. split; [done|]. split; [done|].
        by rewrite Hkeys.
    + intros Hgate. apply map_eq. intros key. rewrite lookup_empty.
      apply eq_None_not_Some. rewrite (fetchBalances_entry_iff q order key Hp).
      intros (n & Hin & _ & Hg). rewrite Hkeys in Hg by done. congruence.
Qed.

(** X8.  When [VITE_RPC_URL] is not set, [initializeProvider] stops at the
    configuration error and builds no provider, while the batch still
    treats BSC like any other network: it connects to the default endpoint
    and BSC gets an entry whenever [VITE_RELAYER_PRIVATE_KEY] passes the
    gate. *)
Theorem unconfigured_url_still_fetches_bsc q order st :
  order ≡ₚ NETWORKS ->
  JS.truthyOpt VITE_RPC_URL = false ->
  passesKeyGate VITE_RELAYER_PRIVATE_KEY = true ->
  initializeProvider st = (commitInitError configurationMessage st, [])
  /\ is_Some ((fetchBalances q order).2 !! "BSC")
  /\ OpenConnection "BSC" "https://bsc-dataseed1.binance.org" ∈ (fetchBalances q order).1.
Proof.
  intros Hp Hurl Hgate.
  set (bsc := {| Network.id := 56; Network.name := "BSC";
                 Network.rpcUrl := "https://bsc-dataseed1.binance.org";
                 Network.currency := "BNB";
                 Network.relayerKey := VITE_RELAYER_PRIVATE_KEY |}).
  assert (bsc ∈ NETWORKS) as Hin.
  { unfold NETWORKS, bsc, JS.orDefault. destruct VITE_RPC_URL as [u|]; [|by left].
    simpl in Hurl. rewrite Hurl. by left. }
  split; [|split].
  - unfold initializeProvider. destruct VITE_RELAYER_PRIVATE_KEY as [rk|]; [|done].
    destruct VITE_RPC_URL as [u|]; [|done]. simpl in Hurl. rewrite Hurl.
    by rewrite orb_true_r.
  - apply (fetchBalances_entry_iff q order "BSC" Hp). by exists bsc.
  - pose proof (fetchBalances_effects_of q order bsc Hp Hin) as [Htrace Hne].
    simpl in Htrace, Hne. apply Hne in Hgate.
    destruct Htrace as [E | [E | [addr E]]]; [done | |].
    + eapply (list_elem_of_filter (fun e => effectNetwork e = "BSC")).
      rewrite E. by left.
    + eapply (list_elem_of_filter (fun e => effectNetwork e = "BSC")).
      rewrite E. by left.
Qed.
End FetchCoverage.


(** ** Coherence of every reachable state *)

Section Coherence.
Context {env : ImportMetaEnv} {ethers : Ethers}.
Implicit Types (st prev current : EnvWalletState) (s : Sys) (k key : string).

Lemma newWallet_bound k p w :
  newWallet k p = Normal w ->
  walletProvider w = p /\ computeAddress k = Normal (address w).
Proof.
  unfold newWallet. destruct (computeAddress k) as [a|e]; [|done].
  by intros [= <-].
Qed.

Lemma taskWellFormed_mono st st' t :
  (is_Some (relayerWallet st) -> is_Some (relayerWallet st')) ->
  taskWellFormed st t -> taskWellFormed st' t.
Proof. destruct t; simpl; try done. intros Hm [Hs Hr]. split; [done | auto]. Qed.

Lemma collectUpdates_relayer (results : list (Role * string)) u :
  is_Some (updRelayerBalance (foldl applyResult u results)) ->
  is_Some (updRelayerBalance u) \/ Relayer ∈ results.*1.
Proof.
  revert u. induction results as [|[r b] results IH]; intros u; simpl; [by left|].
  intros H. apply IH in H as [H | H]; [|right; by right].
  unfold applyResult in H. simpl in H. destruct r; [by left | right; by left].
Qed.

Lemma refreshPromises_roles st :
  (refreshPromises st).*1 `sublist_of` [User; Relayer]
  /\ (Relayer ∈ (refreshPromises st).*1 -> is_Some (relayerWallet st)).
Proof.
  unfold refreshPromises.
  destruct (userWallet st) as [uw|], (relayerWallet st) as [rw|]; simpl; split.
  - reflexivity.
  - done.
  - apply sublist_skip, sublist_nil_l.
  - intros Hin. apply elem_of_cons in Hin as [[=] | Hin]. by apply elem_of_nil in Hin.
  - by apply sublist_cons.
  - done.
  - apply sublist_nil_l.
  - by intros ?%elem_of_nil.
Qed.

Local Ltac by_coherence :=
  unfold coherentStep, relayerCoherent, userCoherent, multiCoherent;
  simpl; intuition (try done).

Lemma initializeProvider_step st :
  coherentStep st (initializeProvider st).1 (initializeProvider st).2.
Proof.
  unfold initializeProvider, initCatch.
  destruct VITE_RELAYER_PRIVATE_KEY as [rk|]; [|by by_coherence].
  destruct VITE_RPC_URL as [url|]; [|by by_coherence].
  destruct (negb _ || negb _); [by by_coherence|].
  destruct (JsonRpcProvider url) as [p|e]; [|by by_coherence].
  destruct (newWallet rk p) as [w|e] eqn:E; [|by by_coherence].
  apply newWallet_bound in E as [E _]. by_coherence. by repeat constructor.
Qed.

Lemma updateUserPrivateKey_step k st :
  coherentStep st (updateUserPrivateKey k st).1 (updateUserPrivateKey k st).2.
Proof.
  unfold updateUserPrivateKey. destruct (isEmptyKey k) eqn:Ek.
  { by by_coherence. }
  assert (~ Blank k) as Hk.
  { intros Hb. apply isEmptyKey_blank in Hb. congruence. }
  destruct (provider st) as [p|] eqn:Ep.
  - destruct (newWallet k p) as [w|e] eqn:Ew; simpl.
    + apply newWallet_bound in Ew as [_ Ew].
      by_coherence;
        first [ by repeat constructor
              | by rewrite Ep
              | match goal with
                | H : Some _ = Some _ |- _ => injection H as <-; by exists k
                end ].
    + by_coherence; by match goal with H : is_Some None |- _ => destruct H end.
  - by_coherence; by repeat constructor.
Qed.

Lemma resume_step p w network balance st :
  walletProvider w = p ->
  coherentStep st (initializeProviderResume p w network balance st) [].
Proof.
  intros Hw. destruct network as [cid|e]; [|by by_coherence].
  destruct balance as [b|e]; [|by by_coherence].
  by_coherence; by rewrite ?Hw.
Qed.

Lemma refreshSettled_step p promises rs st :
  taskWellFormed st (RefreshQueries p promises) ->
  coherentStep st (refreshSettled promises rs st) [].
Proof.
  intros [_ Hrel]. unfold refreshSettled.
  destruct (promiseAll rs) as [bs|e]; [|by by_coherence].
  by_coherence.
  destruct (updRelayerBalance _) eqn:E; [|by auto].
  apply Hrel. unfold collectUpdates in E.
  assert (is_Some (updRelayerBalance
            (foldl applyResult {| updUserBalance := None; updRelayerBalance := None |}
               (zip promises.*1 (formatEther <$> bs))))) as Hs by (by rewrite E).
  apply collectUpdates_relayer in Hs as [[? [=]] | Hin].
  apply list_elem_of_fmap in Hin as ([r x] & -> & Hin). simpl.
  by apply elem_of_zip_l in Hin.
Qed.

Lemma runOperation_step op st :
  coherentStep st (runOperation op st).1 (runOperation op st).2.
Proof.
  destruct op; simpl.
  - apply initializeProvider_step.
  - apply updateUserPrivateKey_step.
  - unfold refreshBalances. destruct (provider st) as [p|]; by_coherence.
    + constructor; [apply refreshPromises_roles | by repeat constructor].
    + by repeat constructor.
  - by_coherence. by repeat constructor.
Qed.

Lemma settle_step t o st st' ts :
  taskWellFormed st t -> settle t o st = Some (st', ts) -> coherentStep st st' ts.
Proof.
  intros Ht. destruct t, o; simpl; try discriminate.
  - intros [= <- <-]. by apply resume_step.
  - intros [= E]. pose proof (updateUserPrivateKey_step key st) as H.
    by rewrite E in H.
  - intros [= <- <-]. destruct r; by by_coherence.
  - case_bool_decide; [|discriminate]. intros [= <- <-].
    by eapply refreshSettled_step.
  - intros [= <- <-]. by_coherence. by eexists.
Qed.

Lemma coherentStep_sys st st' (old ts : list Task) :
  coherentStep st st' ts ->
  sysCoherent {| committed := st; pending := old |} ->
  forall kept, kept `sublist_of` old ->
  sysCoherent {| committed := st'; pending := kept ++ ts |}.
Proof.
  intros (Hr & Hu & Hm & Hmono & _ & Hts) (Ir & Iu & Im & Ip) kept Hsub.
  simpl in *. split; [auto|]. split; [auto|]. split; [auto|]. simpl.
  apply Forall_app. split; [|done].
  apply Forall_forall. intros t Ht. apply (taskWellFormed_mono st); [done|].
  eapply Forall_forall in Ip; [done|]. by eapply sublist_subseteq.
Qed.

Lemma step_coherent s ev : sysCoherent s -> sysCoherent (step s ev).
Proof.
  intros Hs. destruct s as [st old]. destruct ev as [op | i o]; simpl.
  - pose proof (runOperation_step op st) as H.
    destruct (runOperation op st) as [st' ts]. by eapply coherentStep_sys.
  - destruct (old !! i) as [t|] eqn:Ei; [|done].
    destruct (settle t o st) as [[st' ts]|] eqn:E; [|done].
    eapply coherentStep_sys; [|done|apply sublist_delete].
    eapply settle_step; [|done].
    destruct Hs as (_ & _ & _ & Hp). simpl in Hp.
    by eapply Forall_lookup_1 in Hp.
Qed.

Lemma reachable_coherent s : reachable s -> sysCoherent s.
Proof.
  induction 1 as [|s ev _ IH]; [|by apply step_coherent].
  repeat split; try done; simpl; by intros [? ?].
Qed.

Lemma step_keeps_provider s ev :
  sysCoherent s -> is_Some (provider (committed s)) ->
  is_Some (provider (committed (step s ev))).
Proof.
  intros Hs Hp. destruct s as [st old]. simpl in Hp. destruct ev as [op | i o]; simpl.
  - pose proof (runOperation_step op st) as (_ & _ & _ & _ & H & _).
    destruct (runOperation op st) as [st' ts]. by apply H.
  - destruct (old !! i) as [t|] eqn:Ei; [|done].
    destruct (settle t o st) as [[st' ts]|] eqn:E; [|done]. simpl.
    destruct Hs as (_ & _ & _ & Hall). simpl in Hall.
    eapply Forall_lookup_1 in Hall; [|done].
    pose proof (settle_step t o st st' ts Hall E) as (_ & _ & _ & _ & H & _).
    by apply H.
Qed.

Lemma run_from_reachable s (evs : list Event) : reachable s -> reachable (foldl step s evs).
Proof.
  revert s. induction evs as [|ev evs IH]; intros s Hs; [done|].
  simpl. apply IH. by constructor.
Qed.

(** X9.  In every reachable state the relayer fields belong together:
    [relayerAddress] is the address of [relayerWallet], [provider] is the
    provider that wallet was built with, [chainId] is set exactly when the
    wallet is, and [relayerBalance] is never set without the wallet. *)
Theorem relayer_fields_coherent s :
  reachable s ->
  relayerAddress (committed s) = address <$> relayerWallet (committed s)
  /\ provider (committed s) = walletProvider <$> relayerWallet (committed s)
  /\ (is_Some (chainId (committed s)) <-> is_Some (relayerWallet (committed s)))
  /\ (is_Some (relayerBalance (committed s)) -> is_Some (relayerWallet (committed s))).
Proof. intros Hr. by destruct (reachable_coherent s Hr) as (H & _). Qed.

(** X10.  Once [initializeProvider] has committed a provider, no operation and
    no settling task ever removes it or the relayer wallet: they are
    present in every later state. *)
Theorem provider_never_removed s (evs : list Event) :
  reachable s -> is_Some (provider (committed s)) ->
  is_Some (provider (committed (foldl step s evs)))
  /\ is_Some (relayerWallet (committed (foldl step s evs))).
Proof.
  intros Hr Hp.
  assert (is_Some (provider (committed (foldl step s evs)))) as Hlater.
  { revert s Hr Hp. induction evs as [|ev evs IH]; intros s Hr Hp; [done|].
    simpl. apply IH; [by constructor|].
    apply step_keeps_provider; [by apply reachable_coherent | done]. }
  split; [done|].
  destruct (reachable_coherent _ (run_from_reachable s evs Hr)) as ((_ & Hprov & _) & _).
  rewrite Hprov in Hlater. destruct Hlater as [p Hp']. 
  by destruct (relayerWallet (committed (foldl step s evs))).
Qed.

(** X11.  In every reachable state the user fields belong together:
    [userAddress] is the address of [userWallet]; a user wallet is the one
    derived from [currentUserPrivateKey], which is then a key that is not
    blank; and there is no user wallet without a provider. *)
Theorem user_fields_coherent s :
  reachable s ->
  userAddress (committed s) = address <$> userWallet (committed s)
  /\ (forall w, userWallet (committed s) = Some w ->
        exists k, currentUserPrivateKey (committed s) = Some k
                  /\ ~ Blank k
                  /\ computeAddress k = Normal (address w))
  /\ (is_Some (userWallet (committed s)) -> is_Some (provider (committed s))).
Proof. intros Hr. by destruct (reachable_coherent s Hr) as (_ & H & _). Qed.

(** X12.  Every task pending in a reachable state is well formed: a retry timer
    has the delay of 100 ms and a key that is not blank; a suspended
    [initializeProvider] holds a relayer wallet built with the provider it
    holds; a pending refresh has at most one query per role, the user's
    first, and a relayer query only while the relayer wallet is present. *)
Theorem pending_tasks_well_formed s :
  reachable s ->
  forall i t, pending s !! i = Some t ->
    match t with
    | InitPending p w => walletProvider w = p
    | RetryTimer delay key => delay = 100 /\ ~ Blank key
    | RefreshQueries _ promises =>
        promises.*1 `sublist_of` [User; Relayer]
        /\ (Relayer ∈ promises.*1 -> is_Some (relayerWallet (committed s)))
    | UserBalanceQuery _ _ | MultiFetchPending => True
    end.
Proof.
  intros Hr i t Hi. destruct (reachable_coherent s Hr) as (_ & _ & _ & Hall).
  eapply Forall_lookup_1 in Hall; [|done]. by destruct t.
Qed.



(** X14.  In a reachable state, a call of [refreshBalances] commits nothing.
    With a provider it always issues the relayer's balance query, preceded
    by the user's exactly when there is a user wallet; without a provider
    it issues no balance query.  In both cases it starts a multi-network
    batch. *)
Theorem refresh_issues_queries_for_present_wallets s :
  reachable s ->
  committed (step s (Call OpRefreshBalances)) = committed s
  /\ (provider (committed s) = None ->
      pending (step s (Call OpRefreshBalances)) = pending s ++ [MultiFetchPending])
  /\ (forall p, provider (committed s) = Some p ->
        exists rw,
          relayerWallet (committed s) = Some rw
          /\ pending (step s (Call OpRefreshBalances))
             = pending s
               ++ [RefreshQueries p
                     (match userWallet (committed s) with
                      | Some uw => [(User, address uw)]
                      | None => []
                      end ++ [(Relayer, address rw)]);
                   MultiFetchPending]).
Proof.
  intros Hr. destruct (reachable_coherent s Hr) as ((_ & Hprov & _) & _).
  unfold step, runOperation, refreshBalances, refreshPromises.
  destruct (provider (committed s)) as [p|] eqn:Ep; simpl.
  - split; [done|]. split; [done|]. intros p' [= <-].
    destruct (relayerWallet (committed s)) as [rw|]; [|done]. by exists rw.
  - split; [done|]. split; [done|]. by intros p' [=].
Qed.

(** X16.  Clearing the user does not cancel a retry that is pending: with a
    provider present, the call with a blank key nulls the user wallet and
    leaves the pending tasks as they are, and the next firing of the timer
    commits the wallet of the timer's key again. *)
Theorem pending_retry_survives_clear s i d k k' p w :
  pending s !! i = Some (RetryTimer d k) -> ~ Blank k -> Blank k' ->
  provider (committed s) = Some p -> newWallet k p = Normal w ->
  let cleared := step s (Call (OpUpdateUserPrivateKey k')) in
  userWallet (committed cleared) = None
  /\ currentUserPrivateKey (committed cleared) = Some ""
  /\ pending cleared = pending s
  /\ userWallet (committed (step cleared (Settle i TimerFired))) = Some w
  /\ currentUserPrivateKey (committed (step cleared (Settle i TimerFired))) = Some k.
Proof.
  intros Hi Hk Hk' Hp Hw cleared. apply isEmptyKey_blank in Hk'.
  assert (cleared = {| committed := commitClearUser (committed s); pending := pending s |})
    as ->.
  { unfold cleared, step, runOperation, updateUserPrivateKey. rewrite Hk'. simpl.
    by rewrite app_nil_r. }
  simpl. repeat split; try done.
  all: rewrite Hi; simpl; by rewrite (update_with_provider k _ p w).
Qed.
End Coherence.


(** ** The further properties at the sample configuration *)

Section MoreSamples.
#[local] Existing Instance sampleEnv.
#[local] Existing Instance sampleEthers.

(** X1 at the sample configuration. *)
Lemma fetch_entries_exactly_gated_witness :
  reverse NETWORKS ≡ₚ NETWORKS
  /\ (is_Some ((fetchBalances bscDown (reverse NETWORKS)).2 !! "Arbitrum")
      <-> exists n, n ∈ NETWORKS /\ Network.name n = "Arbitrum"
                    /\ passesKeyGate (Network.relayerKey n) = true).
Proof.
  split; [apply reverse_Permutation|].
  exact (fetch_entries_exactly_gated bscDown (reverse NETWORKS) "Arbitrum"
           (reverse_Permutation NETWORKS)).
Defined.

(** X2 at the sample configuration. *)
Lemma fetch_success_entry_witness :
  let sepolia := {| Network.id := 11155111; Network.name := "Sepolia";
                    Network.rpcUrl :=
                      "https://sepolia.infura.io/v3/9aa3d95b3bc440fa88ea12eaa4456161";
                    Network.currency := "ETH";
                    Network.relayerKey := Some sampleKey |} in
  reverse NETWORKS ≡ₚ NETWORKS
  /\ sepolia ∈ NETWORKS
  /\ (fetchBalances allUp (reverse NETWORKS)).2 !! "Sepolia"
     = Some {| BalanceEntry.balance := "1.0"; BalanceEntry.currency := "ETH" |}.
Proof.
  intros sepolia.
  assert (sepolia ∈ NETWORKS) as Hin
    by apply list_elem_of_further, list_elem_of_further, list_elem_of_here.
  split; [apply reverse_Permutation|]. split; [exact Hin|].
  exact (proj1 (fetch_success_entry allUp (reverse NETWORKS) sepolia sampleKey
                  {| providerUrl := Network.rpcUrl sepolia |}
                  {| address := "addr:" +:+ sampleKey;
                     walletProvider := {| providerUrl := Network.rpcUrl sepolia |} |}
                  5 (reverse_Permutation NETWORKS) Hin
                  eq_refl eq_refl eq_refl eq_refl eq_refl)).
Defined.

(** X3 at the sample configuration. *)
Lemma fetch_result_order_independent_witness :
  NETWORKS ≡ₚ NETWORKS
  /\ reverse NETWORKS ≡ₚ NETWORKS
  /\ (fetchBalances bscDown NETWORKS).2 = (fetchBalances bscDown (reverse NETWORKS)).2.
Proof.
  split; [reflexivity|]. split; [apply reverse_Permutation|].
  exact (fetch_result_order_independent bscDown NETWORKS (reverse NETWORKS)
           (reflexivity NETWORKS) (reverse_Permutation NETWORKS)).
Defined.

(** X4 at the sample configuration. *)
Lemma fetch_effects_per_network_witness :
  let bsc := {| Network.id := 56; Network.name := "BSC";
                Network.rpcUrl := "http://localhost:8545";
                Network.currency := "BNB";
                Network.relayerKey := Some sampleKey |} in
  reverse NETWORKS ≡ₚ NETWORKS
  /\ bsc ∈ NETWORKS
  /\ callbackTrace bsc
       (filter (fun e => effectNetwork e = "BSC") (fetchBalances bscDown (reverse NETWORKS)).1).
Proof.
  intros bsc. assert (bsc ∈ NETWORKS) as Hin by apply list_elem_of_here.
  split; [apply reverse_Permutation|]. split; [exact Hin|].
  exact (proj1 (fetch_effects_per_network bscDown (reverse NETWORKS) bsc
                  (reverse_Permutation NETWORKS) Hin)).
Defined.

(** X7 at the sample configuration. *)
Lemma catalog_falls_back_to_relayer_key_witness :
  reverse (NETWORKS (env := unconfiguredEnv)) ≡ₚ NETWORKS (env := unconfiguredEnv)
  /\ dom (fetchBalances allUp (reverse (NETWORKS (env := unconfiguredEnv)))).2
     = list_to_set ["BSC"; "Ethereum"; "Sepolia"; "Arbitrum"; "Base";
                    "Polygon"; "Optimism"].
Proof.
  split; [apply reverse_Permutation|].
  exact (proj1 (proj2 (proj2 (catalog_falls_back_to_relayer_key (env := unconfiguredEnv)
                                allUp (reverse (NETWORKS (env := unconfiguredEnv)))
                                (reverse_Permutation _))
                         eq_refl eq_refl eq_refl eq_refl eq_refl eq_refl))
           eq_refl).
Defined.

(** X8 at the sample configuration. *)
Lemma unconfigured_url_still_fetches_bsc_witness :
  NETWORKS (env := unconfiguredEnv) ≡ₚ NETWORKS (env := unconfiguredEnv)
  /\ JS.truthyOpt (VITE_RPC_URL (ImportMetaEnv := unconfiguredEnv)) = false
  /\ passesKeyGate (VITE_RELAYER_PRIVATE_KEY (ImportMetaEnv := unconfiguredEnv)) = true
  /\ initializeProvider (env := unconfiguredEnv) initialState
     = (commitInitError configurationMessage initialState, []).
Proof.
  split; [reflexivity|]. split; [reflexivity|]. split; [reflexivity|].
  exact (proj1 (unconfigured_url_still_fetches_bsc (env := unconfiguredEnv)
                  allUp (NETWORKS (env := unconfiguredEnv)) initialState
                  (reflexivity _) eq_refl eq_refl)).
Defined.

(** X9 at the sample configuration. *)
Lemma relayer_fields_coherent_witness :
  reachable (run withUser)
  /\ relayerAddress (committed (run withUser))
     = address <$> relayerWallet (committed (run withUser)).
Proof.
  split; [apply reachable_run|].
  exact (proj1 (relayer_fields_coherent (run withUser) (reachable_run withUser))).
Defined.

(** X10 at the sample configuration. *)
Lemma provider_never_removed_witness :
  let later := [Call (OpUpdateUserPrivateKey "");
                Call OpReinitialize;
                Settle 0 (InitSettled (Throw NonError) (Normal 0))] in
  reachable (run mounted)
  /\ is_Some (provider (committed (run mounted)))
  /\ is_Some (provider (committed (foldl step (run mounted) later))).
Proof.
  intros later.
  assert (is_Some (provider (committed (run mounted)))) as Hp by (by eexists).
  split; [apply reachable_run|]. split; [exact Hp|].
  exact (proj1 (provider_never_removed (run mounted) later (reachable_run mounted) Hp)).
Defined.

(** X11 at the sample configuration. *)
Lemma user_fields_coherent_witness :
  reachable (run withUser)
  /\ userAddress (committed (run withUser))
     = address <$> userWallet (committed (run withUser)).
Proof.
  split; [apply reachable_run|].
  exact (proj1 (user_fields_coherent (run withUser) (reachable_run withUser))).
Defined.

(** X12 at the sample configuration. *)
Lemma pending_tasks_well_formed_witness :
  reachable (run keyBeforeProvider)
  /\ pending (run keyBeforeProvider) !! 0%nat = Some (RetryTimer 100 sampleUserKey)
  /\ (100 = 100 /\ ~ Blank sampleUserKey).
Proof.
  split; [apply reachable_run|]. split; [reflexivity|].
  exact (pending_tasks_well_formed (run keyBeforeProvider) (reachable_run keyBeforeProvider)
           0%nat (RetryTimer 100 sampleUserKey) eq_refl).
Defined.


(** X14 at the sample configuration. *)
Lemma refresh_issues_queries_for_present_wallets_witness :
  reachable (run withUser)
  /\ committed (step (run withUser) (Call OpRefreshBalances)) = committed (run withUser).
Proof.
  split; [apply reachable_run|].
  exact (proj1 (refresh_issues_queries_for_present_wallets (run withUser)
                  (reachable_run withUser))).
Defined.

(** X16 at the sample configuration. *)
Lemma pending_retry_survives_clear_witness :
  let s := run keyBeforeProvider in
  let cleared := step s (Call (OpUpdateUserPrivateKey "")) in
  pending s !! 0%nat = Some (RetryTimer 100 sampleUserKey)
  /\ ~ Blank sampleUserKey
  /\ Blank ""
  /\ userWallet (committed cleared) = None
  /\ userWallet (committed (step cleared (Settle 0 TimerFired)))
     = Some {| address := "addr:" +:+ sampleUserKey;
               walletProvider := {| providerUrl := "http://localhost:8545" |} |}.
Proof.
  intros s cleared. assert (Blank "") as Hb by constructor.
  split; [reflexivity|]. split; [exact sampleUserKey_not_blank|]. split; [exact Hb|].
  pose proof (pending_retry_survives_clear s 0%nat 100 sampleUserKey ""
                {| providerUrl := "http://localhost:8545" |}
                {| address := "addr:" +:+ sampleUserKey;
                   walletProvider := {| providerUrl := "http://localhost:8545" |} |}
                eq_refl sampleUserKey_not_blank Hb eq_refl eq_refl)
    as (H1 & _ & _ & H2 & _).
  by split.
Defined.
End MoreSamples.
